(** * The pairing flow of [src/pair.js]

    A shallow embedding of [removeFile], [generatePairingCodeAndConnect] and
    the [connection.update] listener it installs, followed by the properties
    of the session pairing and lifecycle state machine.

    The program is asynchronous JavaScript.  A run of the route function or
    of the listener is a computation in a small monad over a [World] (the
    shared response object, the workspace directories under [./temp], the
    registered listeners, the scheduled re-invocations and the log of
    outbound effects) with exceptions, process exit, and suspension: every
    [await] of the source is a point where the run yields and other runs
    may change the world before it resumes.  Collaborators the program only
    calls (transport, archival upload, clock) answer through oracle
    records, so that every outcome they can have is covered. *)

From Stdlib Require Import ZArith Ascii String.
From stdpp Require Import base strings gmap list pretty.

Open Scope string_scope.
Open Scope list_scope.

(** ** JavaScript string operations used by the flow *)

Module JsString.

(** The character range [0-9] of the regular expression. *)
Definition in_range (lo hi c : ascii) : bool :=
  (nat_of_ascii lo <=? nat_of_ascii c)%nat && (nat_of_ascii c <=? nat_of_ascii hi)%nat.

Definition is_digit (c : ascii) : bool := in_range "0" "9" c.

(** [s.replace(/[cls]/g, rep)]: every character of the class is replaced,
    the others are kept in place.  Characters outside ASCII are encoded by
    units that are all above ["9"], so the unit-wise reading agrees with
    JavaScript's on the class [^0-9]. *)
Fixpoint replace_class_g (cls : ascii -> bool) (rep s : string) : string :=
  match s with
  | EmptyString => EmptyString
  | String c s' =>
      if cls c then rep +:+ replace_class_g cls rep s'
      else String c (replace_class_g cls rep s')
  end.

Fixpoint drop (n : nat) (s : string) : string :=
  match n, s with
  | O, _ => s
  | S n', String _ s' => drop n' s'
  | S _, EmptyString => EmptyString
  end.

(** [s.replace(pat, rep)] with a string pattern: only the first occurrence
    of [pat], wherever it stands, is replaced. *)
Fixpoint replace_first (pat rep s : string) : string :=
  if String.prefix pat s then rep +:+ drop (String.length pat) s
  else match s with
       | EmptyString => EmptyString
       | String c s' => String c (replace_first pat rep s')
       end.

(** The characters of a string, as a list. *)
Fixpoint chars (s : string) : list ascii :=
  match s with
  | EmptyString => []
  | String c s' => c :: chars s'
  end.

(** [hay.includes(needle)]. *)
Fixpoint includes (needle hay : string) : bool :=
  String.prefix needle hay ||
  match hay with
  | EmptyString => false
  | String _ hay' => includes needle hay'
  end.

End JsString.

(** ** Data model *)

(** [req.query]: the only parameter read is [number], absent or a string. *)
Record Request := { query_number : option string }.

(** JavaScript truthiness of [req.query.number]: [undefined] and the empty
    string are falsy, every other string is truthy. *)
Definition truthy (v : option string) : bool :=
  match v with
  | None => false
  | Some s => negb (String.eqb s EmptyString)
  end.

(** A reply written to the response object: [res.status(c).send({ code })]. *)
Record Reply := { status : Z; code : string }.

(** The credentials kept in [creds.json]. *)
Record Creds := { registered : bool }.

(** A workspace directory [./temp/<sessionId>]: the only file of it the flow
    looks at is [creds.json]. *)
Record Workspace := { creds_json : option Creds }.

(** [update.connection]. *)
Inductive Connection := connecting | open | close.

(** [lastDisconnect.error.output.statusCode], with every link optional as in
    JavaScript: [lastDisconnect] and [error] may be absent (falsy), and an
    error without [output] makes the property read throw. *)
Record Boom := { statusCode : Z }.
Record DisconnectError := { output : option Boom; message : string }.
Record LastDisconnect := { error : option DisconnectError }.
Record Update := { connection : option Connection; lastDisconnect : option LastDisconnect }.

(** A message object returned by [sock.sendMessage]. *)
Record WAMessage := { key_id : string }.

Record ExternalAdReply := {
  title : string; thumbnailUrl : string; sourceUrl : string;
  mediaType : Z; renderLargerThumbnail : bool }.

Record Content := { text : string; contextInfo : option ExternalAdReply }.

(** [fs.createReadStream(path)]: the path and what the file holds. *)
Record ReadStream := { rs_path : string; rs_content : option Creds }.

Inductive Exn :=
| ReferenceError (name : string)
| TypeError (what : string)
| Rejected (reason : string).

(** A listener installed by [sock.ev.on("connection.update", ...)]; the
    closure captures the workspace path of its invocation. *)
Record Listener := { l_dir : string }.

(** Outbound effects, in the order the program performs them. *)
Inductive Effect :=
| ELog (is_error : bool) (line : string)
| EDelay (ms : Z)
| EAuthState (dir : string)
| EMakeSocket (dir : string)
| ERequestPairingCode (phoneNumber : string)
| EReply (r : Reply)
| ESubscribe (event : string) (dir : string)
| EUpload (stream : ReadStream) (filename : string)
| ESendMessage (jid : string) (content : Content) (quoted : option WAMessage)
| EWsClose (dir : string)
| ERmSync (path : string)
| EReinvoke (req : Request)
| EExit (code : option Z).

Record World := {
  next_id : nat;                       (* how many ids [makeid] has issued *)
  fs : gmap string Workspace;          (* the directories under ./temp *)
  headersSent : bool;                  (* res.headersSent *)
  sent : list Reply;                   (* what was written to res *)
  listeners : list Listener;           (* connection.update listeners *)
  pending : nat;                       (* invocations scheduled, not yet run *)
  exited : bool;                       (* process.exit() was called *)
  trace : list Effect
}.

Definition set_next_id (n : nat) (w : World) : World :=
  {| next_id := n; fs := fs w; headersSent := headersSent w; sent := sent w;
     listeners := listeners w; pending := pending w; exited := exited w; trace := trace w |}.
Definition set_fs (m : gmap string Workspace) (w : World) : World :=
  {| next_id := next_id w; fs := m; headersSent := headersSent w; sent := sent w;
     listeners := listeners w; pending := pending w; exited := exited w; trace := trace w |}.
Definition set_res (h : bool) (s : list Reply) (w : World) : World :=
  {| next_id := next_id w; fs := fs w; headersSent := h; sent := s;
     listeners := listeners w; pending := pending w; exited := exited w; trace := trace w |}.
Definition set_listeners (ls : list Listener) (w : World) : World :=
  {| next_id := next_id w; fs := fs w; headersSent := headersSent w; sent := sent w;
     listeners := ls; pending := pending w; exited := exited w; trace := trace w |}.
Definition set_pending (n : nat) (w : World) : World :=
  {| next_id := next_id w; fs := fs w; headersSent := headersSent w; sent := sent w;
     listeners := listeners w; pending := n; exited := exited w; trace := trace w |}.
Definition set_exited (b : bool) (w : World) : World :=
  {| next_id := next_id w; fs := fs w; headersSent := headersSent w; sent := sent w;
     listeners := listeners w; pending := pending w; exited := b; trace := trace w |}.
Definition set_trace (t : list Effect) (w : World) : World :=
  {| next_id := next_id w; fs := fs w; headersSent := headersSent w; sent := sent w;
     listeners := listeners w; pending := pending w; exited := exited w; trace := t |}.

(** ** The monad of one run *)

Inductive Outcome (A : Type) :=
| Ret (a : A)       (* the run reached this value *)
| Throw (e : Exn)   (* an exception is propagating *)
| Exit.             (* process.exit() ended the process *)
Arguments Ret {A} a.
Arguments Throw {A} e.
Arguments Exit {A}.

(** What a run has done when control leaves it: it is over, or it is
    suspended at an [await] and goes on from whatever world it is resumed
    in. *)
Inductive Res (A : Type) :=
| Done (o : Outcome A) (w : World)
| Yield (w : World) (k : World -> Res A).
Arguments Done {A} o w.
Arguments Yield {A} w k.

Definition M (A : Type) : Type := World -> Res A.

Definition ret {A} (a : A) : M A := fun w => Done (Ret a) w.

Fixpoint bind_res {A B} (r : Res A) (k : A -> M B) : Res B :=
  match r with
  | Done (Ret a) w => k a w
  | Done (Throw e) w => Done (Throw e) w
  | Done Exit w => Done Exit w
  | Yield w resume => Yield w (fun w' => bind_res (resume w') k)
  end.

Definition bind {A B} (m : M A) (k : A -> M B) : M B :=
  fun w => bind_res (m w) k.

Definition throw {A} (e : Exn) : M A := fun w => Done (Throw e) w.

(** [try { body } catch (e) { handler }]; a process exit is not caught. *)
Fixpoint catch_res {A} (r : Res A) (handler : Exn -> M A) : Res A :=
  match r with
  | Done (Throw e) w => handler e w
  | Done o w => Done o w
  | Yield w resume => Yield w (fun w' => catch_res (resume w') handler)
  end.

Definition try_catch {A} (body : M A) (handler : Exn -> M A) : M A :=
  fun w => catch_res (body w) handler.

Declare Scope flow_scope.
Delimit Scope flow_scope with flow.
Notation "x <- m ;; k" := (bind m (fun x => k))
  (at level 100, m at next level, k at level 200, right associativity) : flow_scope.
Notation "m ;; k" := (bind m (fun _ => k))
  (at level 100, k at level 200, right associativity) : flow_scope.
Open Scope flow_scope.

Definition emit (e : Effect) : M unit :=
  fun w => Done (Ret tt) (set_trace (trace w ++ [e]) w).

(** The suspension of an [await]. *)
Definition yield : M unit :=
  fun w => Yield w (fun w' => Done (Ret tt) w').

(** Awaiting a collaborator's promise: the run is suspended, and resumes
    with the value the promise resolved to or with its rejection thrown. *)
Definition await {A} (r : Exn + A) : M A :=
  yield ;;
  match r with
  | inl e => throw e
  | inr a => ret a
  end.

(** A run that nothing interrupts: every suspension resumes at once, in
    the world it was suspended in. *)
Fixpoint finish {A} (r : Res A) : Outcome A * World :=
  match r with
  | Done o w => (o, w)
  | Yield w resume => finish (resume w)
  end.

Definition alone {A} (m : M A) (w : World) : Outcome A * World := finish (m w).

(** ** Runtime primitives *)

(** [await delay(ms)]. *)
Definition delay (ms : Z) : M unit := emit (EDelay ms) ;; yield.
Definition console_log (line : string) : M unit := emit (ELog false line).
Definition console_error (line : string) : M unit := emit (ELog true line).

Definition get_headersSent : M bool := fun w => Done (Ret (headersSent w)) w.

(** [res.status(c).send({ code: msg })].  The write is unconditional: the
    response object does not protect itself, so that replying at most once
    is a property of the guards of the program. *)
Definition res_send (c : Z) (msg : string) : M unit :=
  fun w => let r := {| status := c; code := msg |} in
           Done (Ret tt) (set_trace (trace w ++ [EReply r]) (set_res true (sent w ++ [r]) w)).

(** [if (!res.headersSent) { body }]. *)
Definition unless_headersSent (body : M unit) : M unit :=
  hs <- get_headersSent ;;
  if negb hs then body else ret tt.

(** [fs.existsSync] on a workspace directory and on its [creds.json]. *)
Definition existsSync (path : string) : M bool :=
  fun w => Done (Ret (match fs w !! path with Some _ => true | None => false end)) w.

Definition stored_creds (w : World) (dir : string) : option Creds :=
  match fs w !! dir with
  | Some ws => creds_json ws
  | None => None
  end.

Definition existsSync_creds (dir : string) : M bool :=
  fun w => Done (Ret (match stored_creds w dir with Some _ => true | None => false end)) w.

(** [fs.rmSync(path, { recursive: true, force: true })]. *)
Definition rmSync (path : string) : M unit :=
  fun w => Done (Ret tt) (set_trace (trace w ++ [ERmSync path]) (set_fs (delete path (fs w)) w)).

Definition createReadStream (dir path : string) : M ReadStream :=
  fun w => Done (Ret {| rs_path := path; rs_content := stored_creds w dir |}) w.

(** [process.exit(code)]: nothing runs after it.  Without an argument the
    process ends with its default status, which is success. *)
Definition process_exit {A} (code : option Z) : M A :=
  fun w => Done Exit (set_trace (trace w ++ [EExit code]) (set_exited true w)).

(** Reading an identifier no scope declares. *)
Definition read_undeclared (name : string) : M string := throw (ReferenceError name).

(** A call of the async route function that is not awaited: the callee runs
    as an invocation of its own, and nothing it throws reaches the caller. *)
Definition schedule (req : Request) : M unit :=
  fun w => Done (Ret tt)
             (set_trace (trace w ++ [EReinvoke req]) (set_pending (S (pending w)) w)).

(** ** [removeFile] (lines 15-21) *)

Definition removeFile (filePath : string) : M bool :=
  ex <- existsSync filePath ;;
  if ex then rmSync filePath ;; ret true
  else ret false.

(** ** Collaborators *)

(** What the transport answers during one invocation. *)
Record SetupEnv := {
  authState_fails : option Exn;     (* useMultiFileAuthState rejects *)
  makeSocket_fails : option Exn;    (* makeWASocket throws *)
  pairingCode : Exn + string        (* sock.requestPairingCode resolves or rejects *)
}.

(** What the collaborators answer during one run of the listener. *)
Record ExportEnv := {
  user_id : string;                 (* sock.user.id *)
  upload_result : Exn + string;     (* upload(...) of ./mega *)
  sendMessage1 : Exn + WAMessage;   (* the first sock.sendMessage *)
  sendMessage2 : Exn + WAMessage;   (* the second sock.sendMessage *)
  tanzaniaTime : string;            (* new Date().toLocaleTimeString(...) *)
  tanzaniaDate : string             (* new Date().toLocaleDateString(...) *)
}.

(** The transport's [await useMultiFileAuthState(folder)]: the folder is
    created when it is missing, and the stored credentials are read; a
    folder without [creds.json] gives fresh, unregistered credentials. *)
Definition read_authState (folder : string) : M Creds :=
  fun w => match fs w !! folder with
           | Some ws => Done (Ret (default {| registered := false |} (creds_json ws))) w
           | None => Done (Ret {| registered := false |})
                       (set_fs (<[folder := {| creds_json := None |}]> (fs w)) w)
           end.

Definition useMultiFileAuthState (env : SetupEnv) (folder : string) : M Creds :=
  emit (EAuthState folder) ;;
  match authState_fails env with
  | Some e => await (inl e)
  | None => state <- read_authState folder ;; await (inr state)
  end.

(** [makeWASocket({ auth: { creds: state.creds, ... }, ... })]; the value is
    [sock.authState.creds]. *)
Definition makeWASocket (env : SetupEnv) (dir : string) (state : Creds) : M Creds :=
  emit (EMakeSocket dir) ;;
  match makeSocket_fails env with
  | Some e => throw e
  | None => ret state
  end.

Definition requestPairingCode (env : SetupEnv) (phoneNumber : string) : M string :=
  emit (ERequestPairingCode phoneNumber) ;;
  await (pairingCode env).

Definition upload (env : ExportEnv) (stream : ReadStream) (filename : string) : M string :=
  emit (EUpload stream filename) ;;
  await (upload_result env).

Definition sendMessage (answer : Exn + WAMessage) (jid : string) (content : Content)
    (quoted : option WAMessage) : M WAMessage :=
  emit (ESendMessage jid content quoted) ;;
  await answer.

(** [await sock.ws.close()]. *)
Definition ws_close (dir : string) : M unit := emit (EWsClose dir) ;; yield.

(** [sock.ev.on('creds.update', saveCreds)]. *)
Definition ev_on_creds_update (dir : string) : M unit :=
  emit (ESubscribe "creds.update" dir).

(** [sock.ev.on("connection.update", async (update) => ...)]. *)
Definition ev_on_connection_update (dir : string) : M unit :=
  fun w => Done (Ret tt)
             (set_trace (trace w ++ [ESubscribe "connection.update" dir])
                (set_listeners (listeners w ++ [{| l_dir := dir |}]) w)).

(** ** The [connection.update] listener (lines 75-185) *)

(** The template literal of lines 109-129. *)
Definition botDescription (tanzaniaTime tanzaniaDate : string) : string :=
  "🟢  *BOT SUCCESSFULLY CONNECTED 🟢!*
                
╭━━ 『 RAHEEM-XMD-3 INITIALIZED 』
┃  ⚡ BOT NAME: RAHEEM-XMD-3 
┃  👑 OWNER: Raheem-cm 
┃  ⚙️ MODE: *private*
┃  🎯 PREFIX: *.*
┃  ⏳ TIME: *" +:+ tanzaniaTime +:+ "*
┃  📆 DATE: " +:+ tanzaniaDate +:+ "
╰━━━━━━━━━━━━━━━━━━━╯

⚠️ REPORT ANY GLITCHES DIRECTLY TO THE OWNER.

╭──────────────────★
│ POWERED BY Raheem-cm
╰──────────────────★
📢 CHANNEL: Click Here(https://whatsapp.com/channel/0029VbAffhD2ZjChG9DX922r)
🛠️ DEPLOY YOUR BOT: GitHub Repo(https://github.com/Raheem-cm/RAHEEM-XMD-3)

🔋  SYSTEM STATUS: RAHEEM-XMD-3 100% 🧐  A.I READY • MULTI DEVICE • STABLE RELEASE
".

Definition adReply : ExternalAdReply :=
  {| title := "PEACE MD💚";
     thumbnailUrl := "https://files.catbox.moe/wtjh55.jpg";
     sourceUrl := "https://github.com/Raheem-cm/RAHEEM-XMD-3";
     mediaType := 1;
     renderLargerThumbnail := true |}.

(** [lastDisconnect && lastDisconnect.error && lastDisconnect.error.output.statusCode]:
    the conjunction stops at the first absent link; once the error is there,
    reading [statusCode] of an absent [output] throws. *)
Definition disconnect_statusCode (update : Update) : M (option Z) :=
  match lastDisconnect update with
  | None => ret None
  | Some ld =>
      match error ld with
      | None => ret None
      | Some err =>
          match output err with
          | None => throw (TypeError "Cannot read properties of undefined (reading 'statusCode')")
          | Some o => ret (Some (statusCode o))
          end
      end
  end.

(** The pure part of lines 98-99. *)
Definition sessionString (megaUrl : string) : string :=
  JsString.replace_first "https://mega.nz/file/" EmptyString megaUrl.

Definition messageToSelf (megaUrl : string) : string :=
  "RAHEEM-XMD-3>>>" +:+ sessionString megaUrl.

Definition on_connection_update (req : Request) (env : ExportEnv)
    (sessionDirPath : string) (update : Update) : M unit :=
  match connection update with
  | Some open =>
      delay 5000 ;;
      let credsFilePath := sessionDirPath +:+ "/creds.json" in
      present <- existsSync_creds sessionDirPath ;;
      if negb present then
        (* line 85 reads [cresFilePath], which is declared nowhere *)
        cresFilePath <- read_undeclared "cresFilePath" ;;
        console_error ("ERROR: creds.json not found at " +:+ cresFilePath) ;;
        unless_headersSent
          (res_send 500 "❗ Connection failed: Credentials file not found.") ;;
        ws_close sessionDirPath ;;
        removeFile sessionDirPath ;;
        ret tt
      else
        try_catch
          (stream <- createReadStream sessionDirPath credsFilePath ;;
           megaUrl <- upload env stream (user_id env +:+ ".json") ;;
           sentMessage <- sendMessage (sendMessage1 env) (user_id env)
                            {| text := messageToSelf megaUrl; contextInfo := None |} None ;;
           sendMessage (sendMessage2 env) (user_id env)
             {| text := botDescription (tanzaniaTime env) (tanzaniaDate env);
                contextInfo := Some adReply |}
             (Some sentMessage) ;;
           delay 100 ;;
           ws_close sessionDirPath ;;
           removeFile sessionDirPath ;;
           console_log ("👤 " +:+ user_id env +:+ " Connected ✅ Restarting process...") ;;
           process_exit None)
          (fun megaError =>
             console_error "ERROR uploading to Mega or sending messages:" ;;
             unless_headersSent
               (res_send 500 "❗ Failed to upload or send messages.") ;;
             ws_close sessionDirPath ;;
             removeFile sessionDirPath ;;
             ret tt)
  | Some close =>
      sc <- disconnect_statusCode update ;;
      match sc with
      | Some c =>
          if negb (c =? 401)%Z then
            console_log "Connection closed, restarting pairing process due to:" ;;
            removeFile sessionDirPath ;;
            delay 2000 ;;
            schedule req
          else
            console_log "Authentication failed, removing session and restarting:" ;;
            removeFile sessionDirPath ;;
            unless_headersSent
              (res_send 401 "❗ Authentication failed. Please try again.") ;;
            process_exit None
      | None => ret tt
      end
  | _ => ret tt
  end.

(** ** [generatePairingCodeAndConnect] (lines 29-194) *)

Section Flow.

(** Modelled from the spec: [makeid] of [./gen-id], which is not among the
    sources.  The spec calls the session id an opaque unique token,
    generated once per attempt: the n-th call returns [makeid n], and
    uniqueness is the hypothesis [makeid_unique] of the results that need
    it. *)
Variable makeid : nat -> string.

Definition makeid_call : M string :=
  fun w => Done (Ret (makeid (next_id w))) (set_next_id (S (next_id w)) w).

Definition sessionDirPath_of (sessionId : string) : string := "./temp/" +:+ sessionId.

(** [phoneNumber.replace(/[^0-9]/g, '')]. *)
Definition sanitize (phoneNumber : string) : string :=
  JsString.replace_class_g (fun c => negb (JsString.is_digit c)) EmptyString phoneNumber.

Definition generatePairingCodeAndConnect (env : SetupEnv) (req : Request) : M unit :=
  sessionId <- makeid_call ;;
  let phoneNumber := query_number req in
  if negb (truthy phoneNumber) then
    res_send 400 "❗ Phone number is required."
  else
    let phoneNumber := sanitize (default EmptyString phoneNumber) in
    let sessionDirPath := sessionDirPath_of sessionId in
    try_catch
      (state <- useMultiFileAuthState env sessionDirPath ;;
       sock_creds <- makeWASocket env sessionDirPath state ;;
       (* [true] when line 67 returned from the function *)
       returned <-
         (if negb (registered sock_creds) then
            delay 1500 ;;
            pairingCode <- requestPairingCode env phoneNumber ;;
            hs <- get_headersSent ;;
            if negb hs then res_send 200 pairingCode ;; ret true
            else ret false
          else ret false) ;;
       if returned : bool then ret tt
       else
         ev_on_creds_update sessionDirPath ;;
         ev_on_connection_update sessionDirPath)
      (fun err =>
         console_error "ERROR in generatePairingCodeAndConnect:" ;;
         removeFile sessionDirPath ;;
         unless_headersSent
           (res_send 500 "❗ Service currently unavailable. Please try again.")).

End Flow.

(** ** The request as a transition system *)

#[global] Instance Listener_eq_dec : EqDecision Listener.
Proof. solve_decision. Defined.

(** [saveCreds], the [creds.update] listener handed out by the transport:
    it writes [creds.json] into the workspace, which fails when the
    directory is gone. *)
Definition saveCreds (dir : string) (c : Creds) (w : World) : World :=
  match fs w !! dir with
  | Some _ => set_fs (<[dir := {| creds_json := Some c |}]> (fs w)) w
  | None => w
  end.

(** The state of the system for one originating request: the world and
    the runs suspended at an [await]. *)
Record Sys := { world : World; suspended : list (World -> Res unit) }.

(** What can happen next: a scheduled invocation starts, the transport
    notifies a registered listener, or a suspended run resumes. *)
Inductive Step :=
| Invoke (env : SetupEnv)
| ConnectionUpdate (l : Listener) (update : Update) (env : ExportEnv)
| CredsUpdate (l : Listener) (c : Creds)
| Resume (i : nat).

(** A run goes on until it is over or suspended; what a run throws at its
    top level is an unhandled rejection and reaches nobody. *)
Definition absorb (r : Res unit) (others : list (World -> Res unit)) : Sys :=
  match r with
  | Done _ w => {| world := w; suspended := others |}
  | Yield w k => {| world := w; suspended := others ++ [k] |}
  end.

Section System.

Variable makeid : nat -> string.
Variable req : Request.

Definition step (sys : Sys) (s : Step) : option Sys :=
  let w := world sys in
  if exited w then None
  else match s with
       | Invoke env =>
           match pending w with
           | O => None
           | S n => Some (absorb (generatePairingCodeAndConnect makeid env req (set_pending n w))
                            (suspended sys))
           end
       | ConnectionUpdate l update env =>
           if bool_decide (l ∈ listeners w)
           then Some (absorb (on_connection_update req env (l_dir l) update w) (suspended sys))
           else None
       | CredsUpdate l c =>
           if bool_decide (l ∈ listeners w)
           then Some {| world := saveCreds (l_dir l) c w; suspended := suspended sys |}
           else None
       | Resume i =>
           match suspended sys !! i with
           | Some k => Some (absorb (k w) (delete i (suspended sys)))
           | None => None
           end
       end.

Fixpoint run (sys : Sys) (steps : list Step) : option Sys :=
  match steps with
  | [] => Some sys
  | s :: rest =>
      match step sys s with
      | Some sys' => run sys' rest
      | None => None
      end
  end.

End System.

(** The state in which the router calls the route function: nothing was
    replied, nothing is subscribed or suspended, one invocation is due. *)
Definition initial_world (n : nat) (files : gmap string Workspace) : World :=
  {| next_id := n; fs := files; headersSent := false; sent := [];
     listeners := []; pending := 1; exited := false; trace := [] |}.

Definition initial_sys (n : nat) (files : gmap string Workspace) : Sys :=
  {| world := initial_world n files; suspended := [] |}.

(** * Vocabulary of the properties *)

(** ** Observing a run *)

(** The events a run added to the log. *)
Definition events_since (w w' : World) : list Effect :=
  drop (length (trace w)) (trace w').

(** What [removeFile] logs: the removal happens when the path exists. *)
Definition rm_events (w : World) (path : string) : list Effect :=
  match fs w !! path with
  | Some _ => [ERmSync path]
  | None => []
  end.

Definition uploads (evs : list Effect) : list (ReadStream * string) :=
  flat_map (fun e => match e with EUpload s f => [(s, f)] | _ => [] end) evs.

Definition messages (evs : list Effect) : list (string * Content * option WAMessage) :=
  flat_map (fun e => match e with ESendMessage j c q => [(j, c, q)] | _ => [] end) evs.

Definition replies (evs : list Effect) : list Reply :=
  flat_map (fun e => match e with EReply r => [r] | _ => [] end) evs.

Definition reinvocations (evs : list Effect) : list Request :=
  flat_map (fun e => match e with EReinvoke r => [r] | _ => [] end) evs.

(** ** Notifications, replies and messages by name *)

(** A Close notification carrying an error with the given status code. *)
Definition close_with (c : Z) (msg : string) : Update :=
  {| connection := Some close;
     lastDisconnect := Some {| error := Some {| output := Some {| statusCode := c |};
                                                 message := msg |} |} |}.

Definition open_update (ld : option LastDisconnect) : Update :=
  {| connection := Some open; lastDisconnect := ld |}.

Definition number_required : Reply :=
  {| status := 400; code := "❗ Phone number is required." |}.

Definition pairing_reply (pcode : string) : Reply :=
  {| status := 200; code := pcode |}.

Definition auth_failure : Reply :=
  {| status := 401; code := "❗ Authentication failed. Please try again." |}.

Definition delivery_failed : Reply :=
  {| status := 500; code := "❗ Failed to upload or send messages." |}.

(** The stream handed to the upload and the two messages of the export. *)
Definition creds_stream (dir : string) (c : Creds) : ReadStream :=
  {| rs_path := dir +:+ "/creds.json"; rs_content := Some c |}.

Definition token_message (url : string) : Content :=
  {| text := messageToSelf url; contextInfo := None |}.

Definition description_message (env : ExportEnv) : Content :=
  {| text := botDescription (tanzaniaTime env) (tanzaniaDate env);
     contextInfo := Some adReply |}.

(** Where the export stops when a collaborator rejects: after the upload,
    after the first message, or after the second. *)
Inductive ExportFailure (env : ExportEnv) : list Effect -> Prop :=
| upload_rejects e :
    upload_result env = inl e ->
    ExportFailure env []
| first_send_rejects url e :
    upload_result env = inr url -> sendMessage1 env = inl e ->
    ExportFailure env [ESendMessage (user_id env) (token_message url) None]
| second_send_rejects url m1 e :
    upload_result env = inr url -> sendMessage1 env = inr m1 -> sendMessage2 env = inl e ->
    ExportFailure env [ESendMessage (user_id env) (token_message url) None;
                       ESendMessage (user_id env) (description_message env) (Some m1)].

(** ** Workspaces on disk *)

(** The workspace directories after [useMultiFileAuthState dir]. *)
Definition opened (files : gmap string Workspace) (dir : string) : gmap string Workspace :=
  match files !! dir with
  | Some _ => files
  | None => <[dir := {| creds_json := None |}]> files
  end.

(** [state.creds.registered] as the transport reads it from [dir]. *)
Definition registered_at (w : World) (dir : string) : bool :=
  match stored_creds w dir with
  | Some c => registered c
  | None => false
  end.

(** The workspace path the next invocation will use. *)
Definition next_dir (makeid : nat -> string) (w : World) : string := sessionDirPath_of (makeid (next_id w)).

(** ** Relations between the worlds before and after a run *)

(** A run is safe for a relation when every stretch of it between two
    suspensions relates the world it starts in to the world it leaves, as
    long as what happens during a suspension is in the relation too. *)
Fixpoint safe (R : relation World) {A} (w0 : World) (r : Res A) : Prop :=
  match r with
  | Done _ w => R w0 w
  | Yield w k => R w0 w /\ forall w', R w w' -> safe R w' (k w')
  end.

Definition respects (P : World -> Prop) (R : relation World) {A} (m : M A) : Prop :=
  forall w, P w -> safe R w (m w).

(** A suspended run that is safe wherever it may be resumed from [w] on. *)
Definition task_ok (R : relation World) (w : World) (k : World -> Res unit) : Prop :=
  forall w', R w w' -> safe R w' (k w').

Definition always : World -> Prop := fun _ => True.

(** How one run may change the response object: not at all, or by the one
    transition of [headersSent] from false to true that writes one reply. *)
Definition res_le (w w' : World) : Prop :=
  (sent w' = sent w /\ headersSent w' = headersSent w)
  \/ (headersSent w = false /\ headersSent w' = true /\ exists r, sent w' = sent w ++ [r]).

(** The response object and its guard agree, and at most one reply is in it. *)
Definition guard_ok (w : World) : Prop :=
  (sent w = [] /\ headersSent w = false)
  \/ (headersSent w = true /\ exists r, sent w = [r]).

(** Every workspace on disk and every listener belongs to an id already
    issued. *)
Definition ws_owned (makeid : nat -> string) (w : World) : Prop :=
  (forall p, is_Some (fs w !! p) ->
             exists j, j < next_id w /\ p = sessionDirPath_of (makeid j))
  /\ (forall l, l ∈ listeners w ->
                exists j, j < next_id w /\ l_dir l = sessionDirPath_of (makeid j)).

(** How a run may change the ownership of workspaces: ids are only
    issued, and ownership is kept. *)
Definition own_le (makeid : nat -> string) (w w' : World) : Prop :=
  next_id w <= next_id w' /\ (ws_owned makeid w -> ws_owned makeid w').

(** The id [n] was issued. *)
Definition issued (n : nat) (w : World) : Prop := n < next_id w.

(** ** Invariants of the system *)

(** The guard holds and every suspended run keeps to it; a request without
    a number is answered by its first invocation, which installs no
    listener, suspends nowhere and schedules nothing. *)
Definition reply_inv (req : Request) (sys : Sys) : Prop :=
  guard_ok (world sys)
  /\ Forall (task_ok res_le (world sys)) (suspended sys)
  /\ (truthy (query_number req) = false ->
      listeners (world sys) = []
      /\ suspended sys = []
      /\ (pending (world sys) = 0
          \/ (pending (world sys) = 1 /\ headersSent (world sys) = false))).

(** Ownership holds and every suspended run keeps it. *)
Definition own_inv (makeid : nat -> string) (sys : Sys) : Prop :=
  ws_owned makeid (world sys)
  /\ Forall (task_ok (own_le makeid) (world sys)) (suspended sys).

(** ** Concrete scenarios *)

Module Scenario.

(** A unique-token generator: the decimal numerals. *)
Definition makeid (n : nat) : string := pretty n.

Definition request : Request := {| query_number := Some "+1 (555) 123-4567" |}.
Definition letters : Request := {| query_number := Some "abc" |}.

Definition setup_ok : SetupEnv :=
  {| authState_fails := None; makeSocket_fails := None; pairingCode := inr "ABCD-1234" |}.

Definition setup_rejects : SetupEnv :=
  {| authState_fails := Some (Rejected "EACCES"); makeSocket_fails := None;
     pairingCode := inr "ABCD-1234" |}.

Definition export_ok : ExportEnv :=
  {| user_id := "15551234567:1@s.whatsapp.net";
     upload_result := inr "https://mega.nz/file/ABC123#key";
     sendMessage1 := inr {| key_id := "3EB0A1" |};
     sendMessage2 := inr {| key_id := "3EB0A2" |};
     tanzaniaTime := "10:15:00 am";
     tanzaniaDate := "2/11/2026" |}.

Definition upload_rejected : ExportEnv :=
  {| user_id := "15551234567:1@s.whatsapp.net";
     upload_result := inl (Rejected "EBLOCKED");
     sendMessage1 := inr {| key_id := "3EB0A1" |};
     sendMessage2 := inr {| key_id := "3EB0A2" |};
     tanzaniaTime := "10:15:00 am";
     tanzaniaDate := "2/11/2026" |}.

(** A disk on which the first workspace already holds registered
    credentials, and one on which it holds none. *)
Definition registered_disk : gmap string Workspace :=
  {[ "./temp/0" := {| creds_json := Some {| registered := true |} |} ]}.

Definition bare_disk : gmap string Workspace :=
  {[ "./temp/0" := {| creds_json := None |} ]}.

Definition first : Listener := {| l_dir := "./temp/0" |}.
Definition second : Listener := {| l_dir := "./temp/1" |}.

(** A listener on the first workspace, no reply written so far. *)
Definition listening (disk : gmap string Workspace) : World :=
  {| next_id := 1; fs := disk; headersSent := false; sent := [];
     listeners := [first]; pending := 0; exited := false; trace := [] |}.

(** The same after the pairing code went out. *)
Definition listening_replied (disk : gmap string Workspace) : World :=
  {| next_id := 1; fs := disk; headersSent := true; sent := [pairing_reply "ABCD-1234"];
     listeners := [first]; pending := 0; exited := false; trace := [] |}.

(** A system in which nothing is suspended. *)
Definition quiet (w : World) : Sys := {| world := w; suspended := [] |}.

(** An invocation that is resumed at each of its three suspensions. *)
Definition invocation (env : SetupEnv) : list Step :=
  [Invoke env; Resume 0; Resume 0; Resume 0].

(** The world in which a run of the system ends. *)
Definition ends (req : Request) (start : Sys) (steps : list Step) : option World :=
  world <$> run makeid req start steps.

(** A race on a session that was already registered: the Open listener is
    suspended in its upload when a transient Close arrives and removes the
    workspace; the upload then rejects; the retry runs; and the retried
    session is closed as unauthorized. *)
Definition race : list Step :=
  [ Invoke setup_ok; Resume 0;
    ConnectionUpdate first (open_update None) upload_rejected; Resume 0;
    ConnectionUpdate first (close_with 428 "Connection Closed") export_ok;
    Resume 0; Resume 0; Resume 0 ]
  ++ invocation setup_ok
  ++ [ ConnectionUpdate second (close_with 401 "Unauthorized") export_ok ].

Definition race_end : World :=
  Eval vm_compute in
    default (initial_world 0 ∅) (ends request (initial_sys 0 registered_disk) race).

(** The world after the primary path. *)
Definition paired (number : string) : World :=
  {| next_id := 1;
     fs := {[ "./temp/0" := {| creds_json := None |} ]};
     headersSent := true;
     sent := [pairing_reply "ABCD-1234"];
     listeners := [];
     pending := 0;
     exited := false;
     trace := [EAuthState "./temp/0"; EMakeSocket "./temp/0"; EDelay 1500;
               ERequestPairingCode number; EReply (pairing_reply "ABCD-1234")] |}.

End Scenario.

(** ** Vocabulary of the further properties *)

Definition service_unavailable : Reply :=
  {| status := 500; code := "❗ Service currently unavailable. Please try again." |}.

(** The reply of line 87. *)
Definition missing_credentials : Reply :=
  {| status := 500; code := "❗ Connection failed: Credentials file not found." |}.

Definition code_requests (evs : list Effect) : list string :=
  flat_map (fun e => match e with ERequestPairingCode p => [p] | _ => [] end) evs.

Definition subscriptions (evs : list Effect) : list (string * string) :=
  flat_map (fun e => match e with ESubscribe ev d => [(ev, d)] | _ => [] end) evs.

(** The number the transport is given for a request. *)
Definition phone_of (req : Request) : string :=
  sanitize (default EmptyString (query_number req)).

(** Neither [useMultiFileAuthState] nor [makeWASocket] fails. *)
Definition setup_succeeds (env : SetupEnv) : bool :=
  match authState_fails env, makeSocket_fails env with
  | None, None => true
  | _, _ => false
  end.

Definition code_resolves (env : SetupEnv) : bool :=
  match pairingCode env with
  | inr _ => true
  | inl _ => false
  end.

(** Something inside the [try] of lines 45-186 throws: the session setup,
    or the request of the pairing code of a session that needs one. *)
Definition setup_fails (env : SetupEnv) (w : World) (dir : string) : bool :=
  negb (setup_succeeds env) || (negb (registered_at w dir) && negb (code_resolves env)).

(** The invocation reaches lines 72-75: the setup succeeds, and line 67
    does not return, the session being registered or a reply having gone
    out before. *)
Definition installs_listener (env : SetupEnv) (req : Request) (w : World) (dir : string) : bool :=
  truthy (query_number req) && setup_succeeds env
  && (registered_at w dir || (code_resolves env && headersSent w)).

(** A Close notification whose error has no [output]. *)
Definition close_without_output (msg : string) : Update :=
  {| connection := Some close;
     lastDisconnect := Some {| error := Some {| output := None; message := msg |} |} |}.

(** The replies the program can write: the pairing code, or one of four
    fixed failures. *)
Definition known_reply (r : Reply) : Prop :=
  status r = 200%Z
  \/ r ∈ [number_required; auth_failure; delivery_failed; service_unavailable].

(** What the log of a request may hold. *)
Definition effect_ok (req : Request) (e : Effect) : Prop :=
  match e with
  | EReply r => known_reply r
  | EUpload stream _ => is_Some (rs_content stream)
  | ERequestPairingCode p => p = phone_of req
  | EReinvoke r => r = req
  | EExit c => c = None
  | _ => True
  end.

(** How a run may extend the log, the response object and the listeners. *)
Definition log_le (req : Request) (w w' : World) : Prop :=
  (exists evs, trace w' = trace w ++ evs /\ Forall (effect_ok req) evs)
  /\ (exists rs, sent w' = sent w ++ rs /\ Forall known_reply rs)
  /\ listeners w `prefix_of` listeners w'.

Definition log_inv (req : Request) (sys : Sys) : Prop :=
  Forall (effect_ok req) (trace (world sys))
  /\ Forall known_reply (sent (world sys))
  /\ Forall (task_ok (log_le req) (world sys)) (suspended sys).

(** * Properties *)

(** ** Strings *)

Module JsStringFacts.
Import JsString.

Lemma prefix_nil_l s : String.prefix EmptyString s = true.
Proof. by destruct s. Qed.

Lemma prefix_app p s : String.prefix p (p +:+ s) = true.
Proof.
  induction p as [|c p IH]; simpl; [apply prefix_nil_l|].
  destruct (ascii_dec c c); [exact IH | congruence].
Qed.

Lemma drop_app p s : drop (String.length p) (p +:+ s) = s.
Proof. induction p as [|c p IH]; simpl; [by destruct s | exact IH]. Qed.

Lemma replace_first_unfold pat rep s :
  replace_first pat rep s =
  if String.prefix pat s then rep +:+ drop (String.length pat) s
  else match s with
       | EmptyString => EmptyString
       | String c s' => String c (replace_first pat rep s')
       end.
Proof. by destruct s. Qed.

(** Replacing a leading occurrence by the empty string strips it. *)
Lemma replace_first_prefix pat s : replace_first pat EmptyString (pat +:+ s) = s.
Proof. rewrite replace_first_unfold, prefix_app. simpl. apply drop_app. Qed.

Lemma includes_unfold needle hay :
  includes needle hay =
  String.prefix needle hay ||
  match hay with
  | EmptyString => false
  | String _ hay' => includes needle hay'
  end.
Proof. by destruct hay. Qed.

Lemma prefix_refl s : String.prefix s s = true.
Proof.
  induction s as [|c s IH]; [done|]. simpl.
  destruct (ascii_dec c c); [exact IH | congruence].
Qed.

Lemma includes_suffix front s : includes s (front +:+ s) = true.
Proof.
  induction front as [|c front IH]; simpl.
  - rewrite includes_unfold, prefix_refl. done.
  - rewrite IH. apply orb_true_r.
Qed.

(** The global replace of a class by the empty string is a filter. *)
Lemma replace_class_g_empty cls s :
  chars (replace_class_g cls EmptyString s) = List.filter (fun c => negb (cls c)) (chars s).
Proof.
  induction s as [|c s IH]; simpl; [done|].
  destruct (cls c); simpl; [exact IH | by rewrite IH].
Qed.

End JsStringFacts.

Lemma sanitize_chars raw :
  JsString.chars (sanitize raw) = List.filter JsString.is_digit (JsString.chars raw).
Proof.
  unfold sanitize. rewrite JsStringFacts.replace_class_g_empty.
  apply List.filter_ext. intros c. apply negb_involutive.
Qed.

Example sanitize_formatted : sanitize "+1 (555) 123-4567" = "15551234567".
Proof. reflexivity. Qed.

Example sanitize_letters : sanitize "abc" = EmptyString.
Proof. reflexivity. Qed.

Example sessionString_mega : sessionString "https://mega.nz/file/ABC123#key" = "ABC123#key".
Proof. reflexivity. Qed.

Example sessionString_inner :
  sessionString "see https://mega.nz/file/ABC" = "see ABC".
Proof. reflexivity. Qed.

(** ** Reasoning about one run *)

Arguments botDescription : simpl never.
Arguments messageToSelf : simpl never.
Arguments sessionDirPath_of : simpl never.
Arguments sanitize : simpl never.
#[local] Arguments String.append : simpl never.

Ltac trace_norm := rewrite <- ?app_assoc; simpl.

Lemma events_since_app w w' evs : trace w' = trace w ++ evs -> events_since w w' = evs.
Proof. unfold events_since. intros ->. apply drop_app_length. Qed.

(** *** Uninterrupted runs, step by step *)

Lemma finish_bind_res {A B} (r : Res A) (k : A -> M B) :
  finish (bind_res r k) =
  match finish r with
  | (Ret a, w) => finish (k a w)
  | (Throw e, w) => (Throw e, w)
  | (Exit, w) => (Exit, w)
  end.
Proof. induction r as [[a|e|] w|w resume IH]; simpl; auto. Qed.

Lemma finish_catch_res {A} (r : Res A) (h : Exn -> M A) :
  finish (catch_res r h) =
  match finish r with
  | (Throw e, w) => finish (h e w)
  | (o, w) => (o, w)
  end.
Proof. induction r as [[a|e|] w|w resume IH]; simpl; auto. Qed.

Lemma alone_bind {A B} (m : M A) (k : A -> M B) w :
  alone (bind m k) w =
  match alone m w with
  | (Ret a, w') => alone (k a) w'
  | (Throw e, w') => (Throw e, w')
  | (Exit, w') => (Exit, w')
  end.
Proof. apply finish_bind_res. Qed.

Lemma alone_try_catch {A} (body : M A) (handler : Exn -> M A) w :
  alone (try_catch body handler) w =
  match alone body w with
  | (Throw e, w') => alone (handler e) w'
  | (o, w') => (o, w')
  end.
Proof. apply finish_catch_res. Qed.

Lemma alone_ret {A} (a : A) w : alone (ret a) w = (Ret a, w).
Proof. done. Qed.
Lemma alone_throw {A} e w : alone (@throw A e) w = (Throw e, w).
Proof. done. Qed.
Lemma alone_yield w : alone yield w = (Ret tt, w).
Proof. done. Qed.
Lemma alone_emit e w : alone (emit e) w = (Ret tt, set_trace (trace w ++ [e]) w).
Proof. done. Qed.
Lemma alone_await_inl {A} e w : alone (@await A (inl e)) w = (Throw e, w).
Proof. done. Qed.
Lemma alone_await_inr {A} (a : A) w : alone (await (inr a)) w = (Ret a, w).
Proof. done. Qed.
Lemma alone_delay ms w : alone (delay ms) w = (Ret tt, set_trace (trace w ++ [EDelay ms]) w).
Proof. done. Qed.
Lemma alone_console_log line w :
  alone (console_log line) w = (Ret tt, set_trace (trace w ++ [ELog false line]) w).
Proof. done. Qed.
Lemma alone_console_error line w :
  alone (console_error line) w = (Ret tt, set_trace (trace w ++ [ELog true line]) w).
Proof. done. Qed.
Lemma alone_get_headersSent w : alone get_headersSent w = (Ret (headersSent w), w).
Proof. done. Qed.
Lemma alone_res_send c msg w :
  alone (res_send c msg) w =
  (Ret tt, set_trace (trace w ++ [EReply {| status := c; code := msg |}])
             (set_res true (sent w ++ [{| status := c; code := msg |}]) w)).
Proof. done. Qed.
Lemma alone_existsSync_creds dir w :
  alone (existsSync_creds dir) w =
  (Ret (match stored_creds w dir with Some _ => true | None => false end), w).
Proof. done. Qed.
Lemma alone_createReadStream dir path w :
  alone (createReadStream dir path) w =
  (Ret {| rs_path := path; rs_content := stored_creds w dir |}, w).
Proof. done. Qed.
Lemma alone_process_exit {A} c w :
  alone (@process_exit A c) w = (Exit, set_trace (trace w ++ [EExit c]) (set_exited true w)).
Proof. done. Qed.
Lemma alone_read_undeclared name w :
  alone (read_undeclared name) w = (Throw (ReferenceError name), w).
Proof. done. Qed.
Lemma alone_schedule req w :
  alone (schedule req) w =
  (Ret tt, set_trace (trace w ++ [EReinvoke req]) (set_pending (S (pending w)) w)).
Proof. done. Qed.
Lemma alone_ws_close dir w :
  alone (ws_close dir) w = (Ret tt, set_trace (trace w ++ [EWsClose dir]) w).
Proof. done. Qed.
Lemma alone_ev_on_creds_update dir w :
  alone (ev_on_creds_update dir) w =
  (Ret tt, set_trace (trace w ++ [ESubscribe "creds.update" dir]) w).
Proof. done. Qed.
Lemma alone_ev_on_connection_update dir w :
  alone (ev_on_connection_update dir) w =
  (Ret tt, set_trace (trace w ++ [ESubscribe "connection.update" dir])
             (set_listeners (listeners w ++ [{| l_dir := dir |}]) w)).
Proof. done. Qed.
Lemma alone_makeid_call makeid w :
  alone (makeid_call makeid) w = (Ret (makeid (next_id w)), set_next_id (S (next_id w)) w).
Proof. done. Qed.

(** What [removeFile] does to the world, without suspending: the path is
    gone afterwards, and the removal is logged when there was something to
    remove. *)
Lemma removeFile_done path w :
  removeFile path w =
  Done (Ret (match fs w !! path with Some _ => true | None => false end))
    (set_trace (trace w ++ rm_events w path) (set_fs (delete path (fs w)) w)).
Proof.
  unfold rm_events, removeFile, bind, existsSync, rmSync, ret. simpl.
  destruct (fs w !! path) eqn:E; simpl; [done|].
  rewrite delete_id by done. rewrite app_nil_r. by destruct w.
Qed.

Lemma alone_removeFile path w :
  alone (removeFile path) w =
  (Ret (match fs w !! path with Some _ => true | None => false end),
   set_trace (trace w ++ rm_events w path) (set_fs (delete path (fs w)) w)).
Proof. unfold alone. by rewrite removeFile_done. Qed.

Lemma alone_unless_headersSent c msg w :
  alone (unless_headersSent (res_send c msg)) w =
  (Ret tt,
   if headersSent w then w
   else set_trace (trace w ++ [EReply {| status := c; code := msg |}])
          (set_res true (sent w ++ [{| status := c; code := msg |}]) w)).
Proof. unfold alone, unless_headersSent, bind, get_headersSent. simpl. by destruct (headersSent w). Qed.

Lemma alone_useMultiFileAuthState_ok env dir w :
  authState_fails env = None ->
  alone (useMultiFileAuthState env dir) w =
  (Ret {| registered := registered_at w dir |},
   set_trace (trace w ++ [EAuthState dir]) (set_fs (opened (fs w) dir) w)).
Proof.
  intros H. unfold alone, useMultiFileAuthState, registered_at, stored_creds, opened.
  rewrite H. unfold bind, emit, read_authState, await, yield, ret. simpl.
  destruct (fs w !! dir) as [[[[]|]]|]; simpl; try done.
  all: f_equal; by destruct w.
Qed.

Lemma alone_useMultiFileAuthState_fails env dir w e :
  authState_fails env = Some e ->
  alone (useMultiFileAuthState env dir) w =
  (Throw e, set_trace (trace w ++ [EAuthState dir]) w).
Proof. intros H. unfold alone, useMultiFileAuthState. by rewrite H. Qed.

Lemma alone_makeWASocket env dir state w :
  alone (makeWASocket env dir state) w =
  (match makeSocket_fails env with Some e => Throw e | None => Ret state end,
   set_trace (trace w ++ [EMakeSocket dir]) w).
Proof. unfold alone, makeWASocket, bind, emit. simpl. by destruct (makeSocket_fails env). Qed.

Lemma alone_requestPairingCode env phone w :
  alone (requestPairingCode env phone) w =
  (match pairingCode env with inl e => Throw e | inr c => Ret c end,
   set_trace (trace w ++ [ERequestPairingCode phone]) w).
Proof. unfold alone, requestPairingCode, bind, emit. simpl. by destruct (pairingCode env). Qed.

Lemma alone_upload env stream name w :
  alone (upload env stream name) w =
  (match upload_result env with inl e => Throw e | inr url => Ret url end,
   set_trace (trace w ++ [EUpload stream name]) w).
Proof. unfold alone, upload, bind, emit. simpl. by destruct (upload_result env). Qed.

Lemma alone_sendMessage answer jid content quoted w :
  alone (sendMessage answer jid content quoted) w =
  (match answer with inl e => Throw e | inr m => Ret m end,
   set_trace (trace w ++ [ESendMessage jid content quoted]) w).
Proof. unfold alone, sendMessage, bind, emit. simpl. by destruct answer. Qed.

Lemma alone_disconnect_statusCode_with c msg w :
  alone (disconnect_statusCode (close_with c msg)) w = (Ret (Some c), w).
Proof. done. Qed.

Lemma stored_creds_set_trace t w dir : stored_creds (set_trace t w) dir = stored_creds w dir.
Proof. done. Qed.

#[local] Arguments alone : simpl never.

Create Rewrite HintDb alone.

#[export] Hint Rewrite @alone_bind @alone_try_catch @alone_ret @alone_throw alone_yield
  alone_emit @alone_await_inl @alone_await_inr alone_delay alone_console_log
  alone_console_error alone_get_headersSent alone_res_send alone_existsSync_creds
  alone_createReadStream @alone_process_exit alone_read_undeclared alone_schedule
  alone_ws_close alone_ev_on_creds_update alone_ev_on_connection_update alone_makeid_call
  alone_removeFile alone_unless_headersSent alone_makeWASocket alone_requestPairingCode
  alone_upload alone_sendMessage alone_disconnect_statusCode_with
  stored_creds_set_trace : alone.

(** Runs an uninterrupted run as far as the oracles in the goal are known. *)
Ltac exec :=
  repeat (autorewrite with alone; cbn beta iota zeta delta [fst snd negb Z.eqb Pos.eqb]).

(** *** The Close branch *)

Lemma close_unauthorized_run req env dir msg w :
  alone (on_connection_update req env dir (close_with 401 msg)) w =
  (Exit,
   set_trace (trace w
                ++ [ELog false "Authentication failed, removing session and restarting:"]
                ++ rm_events w dir
                ++ (if headersSent w then [] else [EReply auth_failure])
                ++ [EExit None])
     (set_exited true
        (set_res true (if headersSent w then sent w else sent w ++ [auth_failure])
           (set_fs (delete dir (fs w)) w)))).
Proof.
  unfold on_connection_update. cbn [connection close_with]. exec. cbn.
  destruct (headersSent w) eqn:H; cbn; trace_norm.
  - f_equal. destruct w; cbn in *. by subst.
  - done.
Qed.

Lemma close_transient_run req env dir c msg w :
  c <> 401%Z ->
  alone (on_connection_update req env dir (close_with c msg)) w =
  (Ret tt,
   set_trace (trace w
                ++ [ELog false "Connection closed, restarting pairing process due to:"]
                ++ rm_events w dir
                ++ [EDelay 2000; EReinvoke req])
     (set_pending (S (pending w)) (set_fs (delete dir (fs w)) w))).
Proof.
  intros Hc. unfold on_connection_update. cbn [connection close_with]. exec.
  destruct (Z.eqb_spec c 401) as [->|_]; [done|]. exec. cbn. trace_norm. done.
Qed.

(** *** The Open branch *)

Lemma stored_creds_dir w dir c : stored_creds w dir = Some c -> is_Some (fs w !! dir).
Proof. unfold stored_creds. destruct (fs w !! dir); [eauto | done]. Qed.

Lemma rm_events_stored w dir c : stored_creds w dir = Some c -> rm_events w dir = [ERmSync dir].
Proof. intros [ws E]%stored_creds_dir. unfold rm_events. by rewrite E. Qed.

Lemma open_missing_run req env dir ld w :
  stored_creds w dir = None ->
  alone (on_connection_update req env dir (open_update ld)) w =
  (Throw (ReferenceError "cresFilePath"), set_trace (trace w ++ [EDelay 5000]) w).
Proof.
  intros H. unfold on_connection_update. cbn [connection open_update]. exec.
  rewrite H. by exec.
Qed.

(** The same wherever the run is resumed: the file is looked for in the
    world the settle interval ends in. *)
Lemma open_missing_resumed req env dir ld w :
  exists k,
    on_connection_update req env dir (open_update ld) w
    = Yield (set_trace (trace w ++ [EDelay 5000]) w) k
    /\ forall w', stored_creds w' dir = None ->
                  k w' = Done (Throw (ReferenceError "cresFilePath")) w'.
Proof.
  eexists. split; [reflexivity|]. intros w' H.
  cbn. unfold existsSync_creds, bind, ret. cbn. by rewrite H.
Qed.

Lemma open_export_run req env dir ld w c url m1 m2 :
  stored_creds w dir = Some c ->
  upload_result env = inr url ->
  sendMessage1 env = inr m1 ->
  sendMessage2 env = inr m2 ->
  alone (on_connection_update req env dir (open_update ld)) w =
  (Exit,
   set_trace (trace w
                ++ [EDelay 5000;
                    EUpload (creds_stream dir c) (user_id env +:+ ".json");
                    ESendMessage (user_id env) (token_message url) None;
                    ESendMessage (user_id env) (description_message env) (Some m1);
                    EDelay 100;
                    EWsClose dir;
                    ERmSync dir;
                    ELog false ("👤 " +:+ user_id env +:+ " Connected ✅ Restarting process...");
                    EExit None])
     (set_exited true (set_fs (delete dir (fs w)) w))).
Proof.
  intros Hc Hu H1 H2.
  unfold on_connection_update. cbn [connection open_update]. exec.
  rewrite Hc. exec.
  rewrite Hu. exec. rewrite H1. exec. rewrite H2. exec. rewrite Hc.
  unfold rm_events. cbn. destruct (stored_creds_dir _ _ _ Hc) as [ws ->].
  cbn. trace_norm. done.
Qed.

Lemma open_failure_run req env dir ld w c sends :
  stored_creds w dir = Some c ->
  ExportFailure env sends ->
  alone (on_connection_update req env dir (open_update ld)) w =
  (Ret tt,
   set_trace (trace w
                ++ [EDelay 5000; EUpload (creds_stream dir c) (user_id env +:+ ".json")]
                ++ sends
                ++ [ELog true "ERROR uploading to Mega or sending messages:"]
                ++ (if headersSent w then [] else [EReply delivery_failed])
                ++ [EWsClose dir; ERmSync dir])
     (set_res true (if headersSent w then sent w else sent w ++ [delivery_failed])
        (set_fs (delete dir (fs w)) w))).
Proof.
  intros Hc Hf.
  unfold on_connection_update. cbn [connection open_update]. exec.
  rewrite Hc. exec.
  destruct Hf as [e Hu | url e Hu H1 | url m1 e Hu H1 H2];
    rewrite Hu; exec; rewrite ?H1; exec; rewrite ?H2; exec; rewrite Hc; cbn;
    destruct (headersSent w) eqn:Hh; cbn;
    unfold rm_events; cbn; destruct (stored_creds_dir _ _ _ Hc) as [ws ->];
    cbn; trace_norm;
    try done; f_equal; destruct w; cbn in *; by subst.
Qed.

(** Every answer of the collaborators is the success or one of the failures. *)
Lemma export_cases env :
  (exists url m1 m2, upload_result env = inr url /\ sendMessage1 env = inr m1
                     /\ sendMessage2 env = inr m2)
  \/ exists sends, ExportFailure env sends.
Proof.
  destruct (upload_result env) as [e|url] eqn:Hu; [right; eexists; by eapply upload_rejects|].
  destruct (sendMessage1 env) as [e|m1] eqn:H1; [right; eexists; by eapply first_send_rejects|].
  destruct (sendMessage2 env) as [e|m2] eqn:H2; [right; eexists; by eapply second_send_rejects|].
  left. eauto 10.
Qed.

Lemma uploads_of_failure env sends : ExportFailure env sends -> uploads sends = [].
Proof. by intros []. Qed.

(** *** Invocations of the route function *)

Section Invocation.

Variable makeid : nat -> string.

(** The primary path: an unregistered session, no reply sent so far. *)
Lemma invoke_primary_run env req w pcode :
  truthy (query_number req) = true ->
  authState_fails env = None ->
  makeSocket_fails env = None ->
  pairingCode env = inr pcode ->
  registered_at w (next_dir makeid w) = false ->
  headersSent w = false ->
  alone (generatePairingCodeAndConnect makeid env req) w =
  (Ret tt,
   set_trace (trace w
                ++ [EAuthState (next_dir makeid w);
                    EMakeSocket (next_dir makeid w);
                    EDelay 1500;
                    ERequestPairingCode (sanitize (default EmptyString (query_number req)));
                    EReply (pairing_reply pcode)])
     (set_res true (sent w ++ [pairing_reply pcode])
        (set_fs (opened (fs w) (next_dir makeid w))
           (set_next_id (S (next_id w)) w)))).
Proof.
  intros Ht Ha Hs Hp Hr Hh. unfold generatePairingCodeAndConnect. exec. rewrite Ht. exec.
  rewrite alone_useMultiFileAuthState_ok by done. exec. rewrite Hs. exec.
  cbn [registered].
  change (registered_at (set_next_id _ w) ?d) with (registered_at w d).
  fold (next_dir makeid w). rewrite Hr. exec. rewrite Hp. exec. cbn. rewrite Hh. exec.
  cbn. trace_norm. done.
Qed.

(** An unregistered session when a reply went out before: the code is
    requested, not delivered, and the listeners are installed. *)
Lemma invoke_replied_run env req w pcode :
  truthy (query_number req) = true ->
  authState_fails env = None ->
  makeSocket_fails env = None ->
  pairingCode env = inr pcode ->
  registered_at w (next_dir makeid w) = false ->
  headersSent w = true ->
  alone (generatePairingCodeAndConnect makeid env req) w =
  (Ret tt,
   set_trace (trace w
                ++ [EAuthState (next_dir makeid w);
                    EMakeSocket (next_dir makeid w);
                    EDelay 1500;
                    ERequestPairingCode (sanitize (default EmptyString (query_number req)));
                    ESubscribe "creds.update" (next_dir makeid w);
                    ESubscribe "connection.update" (next_dir makeid w)])
     (set_listeners (listeners w ++ [{| l_dir := next_dir makeid w |}])
        (set_fs (opened (fs w) (next_dir makeid w))
           (set_next_id (S (next_id w)) w)))).
Proof.
  intros Ht Ha Hs Hp Hr Hh. unfold generatePairingCodeAndConnect. exec. rewrite Ht. exec.
  rewrite alone_useMultiFileAuthState_ok by done. exec. rewrite Hs. exec.
  cbn [registered].
  change (registered_at (set_next_id _ w) ?d) with (registered_at w d).
  fold (next_dir makeid w). rewrite Hr. exec. rewrite Hp. exec. cbn. rewrite Hh. exec.
  cbn. trace_norm. done.
Qed.

(** A session whose stored credentials are registered: no code is
    requested and the listeners are installed. *)
Lemma invoke_registered_run env req w :
  truthy (query_number req) = true ->
  authState_fails env = None ->
  makeSocket_fails env = None ->
  registered_at w (next_dir makeid w) = true ->
  alone (generatePairingCodeAndConnect makeid env req) w =
  (Ret tt,
   set_trace (trace w
                ++ [EAuthState (next_dir makeid w);
                    EMakeSocket (next_dir makeid w);
                    ESubscribe "creds.update" (next_dir makeid w);
                    ESubscribe "connection.update" (next_dir makeid w)])
     (set_listeners (listeners w ++ [{| l_dir := next_dir makeid w |}])
        (set_fs (opened (fs w) (next_dir makeid w))
           (set_next_id (S (next_id w)) w)))).
Proof.
  intros Ht Ha Hs Hr. unfold generatePairingCodeAndConnect. exec. rewrite Ht. exec.
  rewrite alone_useMultiFileAuthState_ok by done. exec. rewrite Hs. exec.
  cbn [registered].
  change (registered_at (set_next_id _ w) ?d) with (registered_at w d).
  fold (next_dir makeid w). rewrite Hr. exec.
  cbn. trace_norm. done.
Qed.

End Invocation.

(** ** Runs that are safe for a relation between worlds *)

Section Respects.

Variable R : relation World.
Context `{!PreOrder R}.
Variable P : World -> Prop.
Hypothesis P_stable : forall w w', P w -> R w w' -> P w'.

Lemma safe_start {A} w0 w (r : Res A) : R w0 w -> safe R w r -> safe R w0 r.
Proof.
  intros H0. destruct r as [o w1|w1 k]; simpl.
  - intros H. by etrans.
  - intros [H Hk]. split; [by etrans | done].
Qed.

Lemma safe_bind_res {A B} (r : Res A) (f : A -> M B) :
  (forall a, respects P R (f a)) ->
  forall w0, P w0 -> safe R w0 r -> safe R w0 (bind_res r f).
Proof.
  intros Hf. induction r as [[a|e|] w|w k IH]; simpl; intros w0 HP Hr; try done.
  - apply (safe_start w0 w); [done|]. apply Hf. by eapply P_stable.
  - destruct Hr as [Hw Hk]. split; [done|]. intros w' Hw'.
    apply IH; [|by apply Hk]. eapply P_stable; [|exact Hw']. by eapply P_stable.
Qed.

Lemma safe_catch_res {A} (r : Res A) (h : Exn -> M A) :
  (forall e, respects P R (h e)) ->
  forall w0, P w0 -> safe R w0 r -> safe R w0 (catch_res r h).
Proof.
  intros Hh. induction r as [[a|e|] w|w k IH]; simpl; intros w0 HP Hr; try done.
  - apply (safe_start w0 w); [done|]. apply Hh. by eapply P_stable.
  - destruct Hr as [Hw Hk]. split; [done|]. intros w' Hw'.
    apply IH; [|by apply Hk]. eapply P_stable; [|exact Hw']. by eapply P_stable.
Qed.

Lemma respects_bind {A B} (m : M A) (f : A -> M B) :
  respects P R m -> (forall a, respects P R (f a)) -> respects P R (bind m f).
Proof. intros Hm Hf w HP. apply safe_bind_res; auto. Qed.

Lemma respects_try_catch {A} (body : M A) (handler : Exn -> M A) :
  respects P R body -> (forall e, respects P R (handler e)) ->
  respects P R (try_catch body handler).
Proof. intros Hb Hh w HP. apply safe_catch_res; auto. Qed.

Lemma respects_ret {A} (a : A) : respects P R (ret a).
Proof. intros w _. simpl. reflexivity. Qed.

Lemma respects_throw {A} (e : Exn) : respects P R (@throw A e).
Proof. intros w _. simpl. reflexivity. Qed.

Lemma respects_yield : respects P R yield.
Proof. intros w _. simpl. split; [reflexivity|]. intros w' _. reflexivity. Qed.

Lemma respects_await {A} (r : Exn + A) : respects P R (await r).
Proof.
  unfold await. apply respects_bind; [apply respects_yield|].
  intros _. destruct r; [apply respects_throw | apply respects_ret].
Qed.

(** A run whose first part is over at once. *)
Lemma safe_bind_sync {A B} (m : M A) (f : A -> M B) w a w1 :
  m w = Done (Ret a) w1 ->
  R w w1 ->
  P w1 ->
  respects P R (f a) ->
  safe R w (bind m f w).
Proof.
  intros Hm Hw HP Hf. unfold bind. rewrite Hm. simpl.
  apply (safe_start w w1); [done|]. by apply Hf.
Qed.

(** A run that is over at once, in a related world. *)
Lemma respects_sync {A} (m : M A) :
  (forall w, P w -> exists o w', m w = Done o w' /\ R w w') -> respects P R m.
Proof. intros H w HP. destruct (H w HP) as (o & w' & -> & Hw). exact Hw. Qed.

Lemma task_ok_mono w w' k : R w w' -> task_ok R w k -> task_ok R w' k.
Proof. intros Hw Hk w'' Hw''. apply Hk. by etrans. Qed.

(** Taking a safe run into the system keeps the suspended runs safe. *)
Lemma absorb_safe w r others :
  safe R w r ->
  Forall (task_ok R w) others ->
  R w (world (absorb r others))
  /\ Forall (task_ok R (world (absorb r others))) (suspended (absorb r others)).
Proof.
  intros Hr Ho. destruct r as [o w'|w' k]; simpl in *.
  - split; [done|]. eapply Forall_impl; [exact Ho|]. intros k. by apply task_ok_mono.
  - destruct Hr as [Hw Hk]. split; [done|]. apply Forall_app. split.
    + eapply Forall_impl; [exact Ho|]. intros k'. by apply task_ok_mono.
    + by apply Forall_singleton.
Qed.

End Respects.

Lemma respects_weaken (R : relation World) (P : World -> Prop) {A} (m : M A) :
  respects always R m -> respects P R m.
Proof. intros H w _. by apply H. Qed.

(** Breaks a run into its primitives along binds, handlers and branches;
    [stable] proves that the precondition survives the relation. *)
Ltac respects_step_with stable :=
  first
    [ apply respects_bind; [apply _|stable| |intros ?]
    | apply respects_try_catch; [apply _|stable| |intros ?]
    | apply respects_ret; apply _
    | apply respects_throw; apply _
    | apply respects_yield; apply _
    | apply respects_await; [apply _|stable]
    | match goal with
      | |- respects _ _ (match ?x with _ => _ end) => destruct x
      end ].

Ltac respects_step := respects_step_with ltac:(done).

(** ** The reply guard *)

#[global] Instance res_le_preorder : PreOrder res_le.
Proof.
  split.
  - intros w. by left.
  - intros w1 w2 w3 [[Hs Hh]|(Hf & Ht & r & Hs)] [[Hs' Hh']|(Hf' & Ht' & r' & Hs')].
    + left. split; congruence.
    + right. split_and!; [congruence | done | exists r'; congruence].
    + right. split_and!; [done | congruence | exists r; congruence].
    + congruence.
Qed.

Lemma guard_ok_le w w' : guard_ok w -> res_le w w' -> guard_ok w'.
Proof.
  intros [[Hs Hh]|(Hh & r & Hs)] [[Hs' Hh']|(Hf & Ht & r' & Hs')].
  - left. split; congruence.
  - right. split; [done|]. exists r'. by rewrite Hs', Hs.
  - right. split; [congruence|]. exists r. congruence.
  - congruence.
Qed.

Lemma guard_ok_length w : guard_ok w -> length (sent w) <= 1.
Proof. intros [[-> _]|(_ & r & ->)]; simpl; lia. Qed.

(** The primitives that leave the response object alone. *)
Lemma res_emit e : respects always res_le (emit e).
Proof. intros w _. by left. Qed.
Lemma res_get_headersSent : respects always res_le get_headersSent.
Proof. intros w _. by left. Qed.
Lemma res_existsSync p : respects always res_le (existsSync p).
Proof. intros w _. by left. Qed.
Lemma res_existsSync_creds d : respects always res_le (existsSync_creds d).
Proof. intros w _. by left. Qed.
Lemma res_rmSync p : respects always res_le (rmSync p).
Proof. intros w _. by left. Qed.
Lemma res_createReadStream d p : respects always res_le (createReadStream d p).
Proof. intros w _. by left. Qed.
Lemma res_process_exit {A} c : respects always res_le (@process_exit A c).
Proof. intros w _. by left. Qed.
Lemma res_schedule req : respects always res_le (schedule req).
Proof. intros w _. by left. Qed.
Lemma res_ev_on_connection_update d : respects always res_le (ev_on_connection_update d).
Proof. intros w _. by left. Qed.
Lemma res_makeid_call makeid : respects always res_le (makeid_call makeid).
Proof. intros w _. by left. Qed.
Lemma res_read_authState d : respects always res_le (read_authState d).
Proof. intros w _. unfold read_authState. destruct (fs w !! d); by left. Qed.

Create HintDb flow discriminated.

#[export] Hint Resolve res_emit res_get_headersSent res_existsSync res_existsSync_creds
  res_rmSync res_createReadStream res_process_exit res_schedule
  res_ev_on_connection_update res_makeid_call res_read_authState : flow.

(** [if (!res.headersSent) { res.status(c).send(...) }]: the write happens
    in the stretch that read the guard. *)
Lemma res_unless_headersSent c msg :
  respects always res_le (unless_headersSent (res_send c msg)).
Proof.
  intros w _. unfold unless_headersSent, bind, get_headersSent, res_send. simpl.
  destruct (headersSent w) eqn:H; simpl; [by left|].
  right. split_and!; [done..|]. by eexists.
Qed.

(** Lines 66-68: the pairing code is written only under the guard. *)
Lemma res_send_code pcode :
  respects always res_le
    (hs <- get_headersSent ;; if negb hs then res_send 200 pcode ;; ret true else ret false).
Proof.
  intros w _. unfold bind, get_headersSent, res_send, ret. simpl.
  destruct (headersSent w) eqn:H; simpl; [by left|].
  right. split_and!; [done..|]. by eexists.
Qed.

Ltac respects_res :=
  repeat first
    [ apply res_unless_headersSent
    | apply res_send_code
    | solve [auto with flow]
    | respects_step ].

Lemma removeFile_res p : respects always res_le (removeFile p).
Proof. unfold removeFile. respects_res. Qed.

#[export] Hint Resolve removeFile_res : flow.

(** The listener touches the response object only through its guard. *)
Lemma on_connection_update_res req env dir update :
  respects always res_le (on_connection_update req env dir update).
Proof.
  unfold on_connection_update, disconnect_statusCode, upload, sendMessage, ws_close,
    delay, console_log, console_error, read_undeclared.
  respects_res.
Qed.

(** So does an invocation, once the number passed the check of line 34. *)
Lemma generatePairingCodeAndConnect_res makeid env req :
  truthy (query_number req) = true ->
  respects always res_le (generatePairingCodeAndConnect makeid env req).
Proof.
  intros Ht. unfold generatePairingCodeAndConnect. rewrite Ht. cbn [negb].
  unfold useMultiFileAuthState, makeWASocket, requestPairingCode, ev_on_creds_update,
    delay, console_error.
  respects_res.
Qed.

(** *** The guard along every run of the system *)

Lemma invoke_rejected makeid env req w :
  truthy (query_number req) = false ->
  generatePairingCodeAndConnect makeid env req w =
  Done (Ret tt)
    (set_trace (trace w ++ [EReply number_required])
       (set_res true (sent w ++ [number_required]) (set_next_id (S (next_id w)) w))).
Proof.
  intros H. unfold generatePairingCodeAndConnect, bind, makeid_call. simpl.
  by rewrite H.
Qed.

Section ReplyInvariant.

Variable makeid : nat -> string.
Variable req : Request.

Lemma reply_inv_initial n files : reply_inv req (initial_sys n files).
Proof.
  split_and!; [by left | by apply Forall_nil|].
  intros _. split_and!; [done..|]. right. done.
Qed.

(** Each step of the system keeps the invariant and moves the response
    object by [res_le]. *)
Lemma reply_inv_step sys s sys' :
  reply_inv req sys -> step makeid req sys s = Some sys' ->
  reply_inv req sys' /\ res_le (world sys) (world sys').
Proof.
  intros (Hg & Hk & Hf) Hs. unfold step in Hs.
  destruct (exited (world sys)); [done|].
  assert (Hsafe : forall r,
             safe res_le (world sys) r ->
             (truthy (query_number req) = true) ->
             reply_inv req (absorb r (suspended sys))
             /\ res_le (world sys) (world (absorb r (suspended sys)))).
  { intros r Hr Ht. destruct (absorb_safe res_le _ r _ Hr Hk) as [Hle Hk'].
    split; [|done]. split_and!; [by eapply guard_ok_le | done | congruence]. }
  destruct s as [env|l update env|l c|i].
  - destruct (pending (world sys)) as [|n] eqn:Hp; [done|]. injection Hs as <-.
    destruct (truthy (query_number req)) eqn:Ht.
    + apply Hsafe; [|done].
      apply (safe_start res_le _ (set_pending n (world sys))); [by left|].
      by apply generatePairingCodeAndConnect_res.
    + destruct (Hf eq_refl) as (Hl & Hsus & [?|[? Hh]]); [congruence|].
      rewrite invoke_rejected by done. simpl.
      assert (Hle : res_le (world sys)
                      (set_trace (trace (world sys) ++ [EReply number_required])
                         (set_res true (sent (world sys) ++ [number_required])
                            (set_next_id (S (next_id (world sys)))
                               (set_pending n (world sys)))))).
      { right. simpl. split_and!; [done..|]. by eexists. }
      split; [|done]. split_and!.
      * by eapply guard_ok_le.
      * rewrite Hsus. by apply Forall_nil.
      * intros _. simpl. split_and!; [done..|]. left. congruence.
  - case_bool_decide as Hin; [|done]. injection Hs as <-.
    destruct (truthy (query_number req)) eqn:Ht.
    + apply Hsafe; [|done]. by apply on_connection_update_res.
    + destruct (Hf eq_refl) as (Hl & _). rewrite Hl in Hin. by apply elem_of_nil in Hin.
  - case_bool_decide as Hin; [|done]. injection Hs as <-.
    assert (Hle : res_le (world sys) (saveCreds (l_dir l) c (world sys))).
    { left. unfold saveCreds. by destruct (fs (world sys) !! l_dir l). }
    split; [|done]. split_and!; simpl.
    + by eapply guard_ok_le.
    + eapply Forall_impl; [exact Hk|]. intros k. exact (task_ok_mono res_le _ _ k Hle).
    + intros Ht. destruct (Hf Ht) as (Hl & _). rewrite Hl in Hin.
      by apply elem_of_nil in Hin.
  - destruct (suspended sys !! i) as [k|] eqn:Hi; [|done]. injection Hs as <-.
    destruct (truthy (query_number req)) eqn:Ht.
    + assert (Hki : task_ok res_le (world sys) k).
      { eapply Forall_lookup_1; [exact Hk | exact Hi]. }
      destruct (absorb_safe res_le (world sys) (k (world sys)) (delete i (suspended sys)))
        as [Hle Hk']; [by apply Hki | by apply Forall_delete|].
      split; [|done]. split_and!; [by eapply guard_ok_le | done | congruence].
    + destruct (Hf eq_refl) as (_ & Hsus & _). by rewrite Hsus in Hi.
Qed.

Lemma reply_inv_run steps : forall sys sys',
  reply_inv req sys -> run makeid req sys steps = Some sys' -> reply_inv req sys'.
Proof.
  induction steps as [|s steps IH]; intros sys sys' Hinv Hr; simpl in Hr.
  - by injection Hr as <-.
  - destruct (step makeid req sys s) as [sys1|] eqn:Hs; [|done].
    eapply IH; [|exact Hr]. by eapply reply_inv_step.
Qed.

End ReplyInvariant.

(** ** Workspaces and session ids *)

#[local] Arguments lookup : simpl never.
#[local] Arguments insert : simpl never.
#[local] Arguments delete : simpl never.

Lemma sessionDirPath_of_inj a b : sessionDirPath_of a = sessionDirPath_of b -> a = b.
Proof. unfold sessionDirPath_of. intros H. by simplify_eq/=. Qed.

Section Ownership.

Variable makeid : nat -> string.

#[global] Instance own_le_preorder : PreOrder (own_le makeid).
Proof.
  split.
  - intros w. split; [lia | done].
  - intros w1 w2 w3 [Hn Ho] [Hn' Ho']. split; [lia | auto].
Qed.

Lemma issued_stable n w w' : issued n w -> own_le makeid w w' -> issued n w'.
Proof. unfold issued. intros Hn [Hle _]. lia. Qed.

(** A run that changes neither the id counter, nor the listeners, and
    only removes from the disk, keeps ownership. *)
Lemma own_le_shrink w w' :
  next_id w' = next_id w ->
  listeners w' = listeners w ->
  (forall p, is_Some (fs w' !! p) -> is_Some (fs w !! p)) ->
  own_le makeid w w'.
Proof.
  intros Hn Hl Hf. split; [lia|]. intros [Hfs Hls]. split.
  - intros p Hp%Hf. rewrite Hn. auto.
  - rewrite Hl, Hn. exact Hls.
Qed.

Lemma own_emit e : respects always (own_le makeid) (emit e).
Proof. intros w _. by apply own_le_shrink. Qed.
Lemma own_get_headersSent : respects always (own_le makeid) get_headersSent.
Proof. intros w _. by apply own_le_shrink. Qed.
Lemma own_existsSync p : respects always (own_le makeid) (existsSync p).
Proof. intros w _. by apply own_le_shrink. Qed.
Lemma own_existsSync_creds d : respects always (own_le makeid) (existsSync_creds d).
Proof. intros w _. by apply own_le_shrink. Qed.
Lemma own_createReadStream d p : respects always (own_le makeid) (createReadStream d p).
Proof. intros w _. by apply own_le_shrink. Qed.
Lemma own_process_exit {A} c : respects always (own_le makeid) (@process_exit A c).
Proof. intros w _. by apply own_le_shrink. Qed.
Lemma own_schedule req : respects always (own_le makeid) (schedule req).
Proof. intros w _. by apply own_le_shrink. Qed.
Lemma own_res_send c msg : respects always (own_le makeid) (res_send c msg).
Proof. intros w _. by apply own_le_shrink. Qed.
Lemma own_rmSync p : respects always (own_le makeid) (rmSync p).
Proof.
  intros w _. apply own_le_shrink; [done..|]. simpl. intros q.
  rewrite lookup_delete_is_Some. tauto.
Qed.

(** Opening the workspace of an issued id, and listening on it. *)
Lemma own_read_authState n :
  respects (issued n) (own_le makeid) (read_authState (sessionDirPath_of (makeid n))).
Proof.
  intros w Hn. unfold read_authState.
  destruct (fs w !! sessionDirPath_of (makeid n)) eqn:E; simpl; [reflexivity|].
  split; [simpl; lia|]. intros [Hfs Hls]. split; [|exact Hls].
  simpl. intros p. rewrite lookup_insert_is_Some. intros [<-|[_ Hp]]; [|by auto].
  by exists n.
Qed.

Lemma own_ev_on_connection_update n :
  respects (issued n) (own_le makeid)
    (ev_on_connection_update (sessionDirPath_of (makeid n))).
Proof.
  intros w Hn. simpl. split; [simpl; lia|]. intros [Hfs Hls]. split; [exact Hfs|].
  simpl. intros l [Hl| ->%list_elem_of_singleton]%elem_of_app; [by auto|].
  by exists n.
Qed.

End Ownership.

Create HintDb own discriminated.

#[export] Hint Resolve own_emit own_get_headersSent own_existsSync own_existsSync_creds
  own_createReadStream own_process_exit own_schedule own_res_send own_rmSync : own.

Ltac respects_own :=
  repeat first
    [ solve [auto with own]
    | apply own_read_authState
    | apply own_ev_on_connection_update
    | apply respects_weaken; solve [auto with own]
    | respects_step_with ltac:(solve [done | apply issued_stable]) ].

Lemma on_connection_update_own makeid req env dir update :
  respects always (own_le makeid) (on_connection_update req env dir update).
Proof.
  unfold on_connection_update, removeFile, unless_headersSent, disconnect_statusCode,
    upload, sendMessage, ws_close, delay, console_log, console_error, read_undeclared.
  respects_own.
Qed.

(** An invocation: the id [n] that [makeid] returns is issued from then
    on, and what follows opens and listens on the workspace of [n]. *)
Lemma generatePairingCodeAndConnect_own makeid env req w :
  safe (own_le makeid) w (generatePairingCodeAndConnect makeid env req w).
Proof.
  unfold generatePairingCodeAndConnect.
  eapply (safe_bind_sync (own_le makeid) (issued (next_id w))).
  - reflexivity.
  - split; [simpl; lia|]. intros [Hfs Hls]. split; simpl.
    + intros p (j & Hj & ->)%Hfs. exists j. split; [lia | done].
    + intros l (j & Hj & Hd)%Hls. exists j. split; [lia | done].
  - unfold issued. simpl. lia.
  - cbv beta zeta.
    unfold useMultiFileAuthState, makeWASocket, requestPairingCode, ev_on_creds_update,
      removeFile, unless_headersSent, delay, console_error.
    respects_own.
Qed.

(** An uninterrupted safe run ends in a related world. *)
Lemma safe_finish (R : relation World) `{!PreOrder R} {A} (r : Res A) :
  forall w, safe R w r -> R w (snd (finish r)).
Proof.
  induction r as [o w1|w1 k IH]; simpl; intros w Hr; [done|].
  destruct Hr as [Hw Hk]. etrans; [exact Hw|]. apply IH, Hk. reflexivity.
Qed.

Section Freshness.

Variable makeid : nat -> string.
Variable req : Request.

Lemma own_inv_initial n : own_inv makeid (initial_sys n ∅).
Proof.
  split; [|by apply Forall_nil]. split; simpl.
  - intros p [ws Hp]. by rewrite lookup_empty in Hp.
  - intros l Hl. by apply elem_of_nil in Hl.
Qed.

(** Ownership is kept by every step of the system, whatever the
    interleaving of the runs. *)
Lemma own_inv_step sys s sys' :
  own_inv makeid sys -> step makeid req sys s = Some sys' -> own_inv makeid sys'.
Proof.
  intros [Ho Hk] Hs. unfold step in Hs.
  destruct (exited (world sys)); [done|].
  assert (Hsafe : forall r, safe (own_le makeid) (world sys) r ->
                            forall others, Forall (task_ok (own_le makeid) (world sys)) others ->
                            own_inv makeid (absorb r others)).
  { intros r Hr others Hot.
    destruct (absorb_safe (own_le makeid) _ r _ Hr Hot) as [[_ Hle] Hk'].
    split; [by apply Hle | done]. }
  destruct s as [env|l update env|l c|i].
  - destruct (pending (world sys)) as [|n] eqn:Hp; [done|]. injection Hs as <-.
    apply Hsafe; [|done].
    apply (safe_start (own_le makeid) _ (set_pending n (world sys))).
    + by apply own_le_shrink.
    + apply generatePairingCodeAndConnect_own.
  - case_bool_decide as Hin; [|done]. injection Hs as <-.
    apply Hsafe; [|done]. by apply on_connection_update_own.
  - case_bool_decide as Hin; [|done]. injection Hs as <-.
    assert (Hle : own_le makeid (world sys) (saveCreds (l_dir l) c (world sys))).
    { unfold saveCreds. destruct (fs (world sys) !! l_dir l) as [ws|] eqn:Hd; [|reflexivity].
      split; [simpl; lia|]. intros [Hfs Hls]. split; [|exact Hls]. simpl. intros p.
      rewrite lookup_insert_is_Some. intros [<-|[_ Hp]]; [|by auto].
      apply Hfs. by rewrite Hd. }
    split; simpl; [by apply Hle|].
    eapply Forall_impl; [exact Hk|]. intros k. exact (task_ok_mono (own_le makeid) _ _ k Hle).
  - destruct (suspended sys !! i) as [k|] eqn:Hi; [|done]. injection Hs as <-.
    apply Hsafe; [|by apply Forall_delete].
    assert (Hki : task_ok (own_le makeid) (world sys) k).
    { eapply Forall_lookup_1; [exact Hk | exact Hi]. }
    apply Hki. reflexivity.
Qed.

Lemma own_inv_run steps : forall sys sys',
  own_inv makeid sys -> run makeid req sys steps = Some sys' -> own_inv makeid sys'.
Proof.
  induction steps as [|s steps IH]; intros sys sys' Hinv Hr; simpl in Hr.
  - by injection Hr as <-.
  - destruct (step makeid req sys s) as [sys1|] eqn:Hs; [|done].
    eapply IH; [|exact Hr]. by eapply own_inv_step.
Qed.

(** An unregistered session whose setup succeeds asks for a pairing code;
    what follows writes no reply when one went out before. *)
Lemma invoke_requests_code env w :
  truthy (query_number req) = true ->
  authState_fails env = None ->
  makeSocket_fails env = None ->
  fs w !! next_dir makeid w = None ->
  next_id (snd (alone (generatePairingCodeAndConnect makeid env req) w)) = S (next_id w)
  /\ exists rest,
      trace (snd (alone (generatePairingCodeAndConnect makeid env req) w)) =
      trace w ++ [EAuthState (next_dir makeid w);
                  EMakeSocket (next_dir makeid w);
                  EDelay 1500;
                  ERequestPairingCode (sanitize (default EmptyString (query_number req)))]
              ++ rest
      /\ (headersSent w = true -> replies rest = []).
Proof.
  intros Ht Ha Hs Hfresh. unfold next_dir in *.
  unfold generatePairingCodeAndConnect. exec. rewrite Ht. exec.
  rewrite alone_useMultiFileAuthState_ok by done. exec. rewrite Hs. exec.
  unfold registered_at, stored_creds, opened, rm_events. cbn. rewrite Hfresh. exec.
  destruct (pairingCode env) as [e|pcode]; exec; cbn;
    unfold rm_events; cbn; rewrite ?lookup_insert_eq; cbn;
    destruct (headersSent w) eqn:Hh; exec; cbn; trace_norm;
    (split; [done|]); eexists; (split; [reflexivity|]); done.
Qed.

Hypothesis makeid_unique : Inj (=) (=) makeid.

(** The path of the next invocation differs from every path in use. *)
Lemma next_dir_fresh w :
  ws_owned makeid w ->
  fs w !! next_dir makeid w = None
  /\ (forall j, j < next_id w -> sessionDirPath_of (makeid j) <> next_dir makeid w)
  /\ (forall l, l ∈ listeners w -> l_dir l <> next_dir makeid w).
Proof.
  intros (Hfs & Hls).
  assert (Hne : forall j, j < next_id w -> sessionDirPath_of (makeid j) <> next_dir makeid w).
  { intros j Hj Heq. apply sessionDirPath_of_inj, makeid_unique in Heq. lia. }
  split_and!; [|done|].
  - apply eq_None_not_Some. intros (j & Hj & Heq)%Hfs. by eapply Hne.
  - intros l (j & Hj & ->)%Hls. by apply Hne.
Qed.

End Freshness.

Lemma scenario_makeid_unique : Inj (=) (=) Scenario.makeid.
Proof. unfold Scenario.makeid. apply _. Qed.

Example race_replies_once :
  sent Scenario.race_end = [delivery_failed] /\ exited Scenario.race_end = true.
Proof. split; reflexivity. Qed.

(** The spec's own upload locator does not start with the prefix the code
    strips, so the token is the whole locator; the message still carries
    the trailing [ABC123]. *)
Example sessionString_foreign_locator :
  sessionString "https://storage.example/file/ABC123" = "https://storage.example/file/ABC123"
  /\ JsString.includes "ABC123" (messageToSelf "https://storage.example/file/ABC123") = true.
Proof. split; reflexivity. Qed.

(** * The claims *)

(** C1: along every run of the system for one originating request, started
    where the router calls the route function (no reply written yet), and
    whatever invocations, Open and Close notifications, credential updates,
    export failures and retries the run interleaves, each run being
    suspended at its [await]s and resumed in any order: the response
    object never holds more than one reply, [headersSent] is true exactly
    when a reply was written, and every further step either leaves the
    response object alone or performs the one transition of [headersSent]
    from false to true that writes the reply; once the guard is true no
    step writes again. *)
Theorem at_most_one_reply makeid req n files steps sys :
  run makeid req (initial_sys n files) steps = Some sys ->
  length (sent (world sys)) <= 1
  /\ guard_ok (world sys)
  /\ (forall s sys', step makeid req sys s = Some sys' -> res_le (world sys) (world sys'))
  /\ (headersSent (world sys) = true ->
      forall s sys', step makeid req sys s = Some sys' ->
                     sent (world sys') = sent (world sys)
                     /\ headersSent (world sys') = true).
Proof.
  intros Hr.
  assert (Hinv : reply_inv req sys).
  { eapply reply_inv_run; [apply reply_inv_initial | exact Hr]. }
  split_and!.
  - apply guard_ok_length, Hinv.
  - apply Hinv.
  - intros s sys' Hs. by destruct (reply_inv_step makeid req _ _ _ Hinv Hs).
  - intros Hh s sys' Hs.
    destruct (reply_inv_step makeid req _ _ _ Hinv Hs) as [_ [[? ?]|[? _]]]; [|congruence].
    split; congruence.
Qed.

Lemma at_most_one_reply_witness :
  Scenario.ends Scenario.request (initial_sys 0 Scenario.registered_disk) Scenario.race
  = Some Scenario.race_end
  /\ length (sent Scenario.race_end) <= 1.
Proof.
  assert (H : Scenario.ends Scenario.request (initial_sys 0 Scenario.registered_disk)
                Scenario.race
              = Some Scenario.race_end) by (vm_compute; reflexivity).
  split; [exact H|].
  unfold Scenario.ends in H.
  destruct (run Scenario.makeid Scenario.request (initial_sys 0 Scenario.registered_disk)
              Scenario.race) as [sys|] eqn:Hr; [|discriminate H].
  injection H as <-.
  exact (proj1 (at_most_one_reply _ _ _ _ _ _ Hr)).
Defined.

(** C2 (the code departs from the claim): an Open notification for a
    workspace without [creds.json].  The run waits the settle interval and
    then throws the ReferenceError of line 85, before any of the steps the
    claim lists: no reply is written, the socket is not closed and the
    workspace stays on disk.  No upload is attempted. *)
Theorem open_without_credentials_throws :
  alone (on_connection_update Scenario.request Scenario.export_ok "./temp/0" (open_update None))
    (Scenario.listening Scenario.bare_disk)
  = (Throw (ReferenceError "cresFilePath"),
     {| next_id := 1; fs := Scenario.bare_disk; headersSent := false; sent := [];
        listeners := [Scenario.first]; pending := 0; exited := false;
        trace := [EDelay 5000] |}).
Proof. by rewrite open_missing_run. Qed.

(** C3 as stated fails: the raw input ["abc"] is not empty, its normal form
    is empty, and the request is not rejected: a workspace is created, a
    pairing code is requested for the empty number and returned with
    status 200. *)
Lemma letters_are_not_rejected :
  sanitize "abc" = EmptyString
  /\ run Scenario.makeid Scenario.letters (initial_sys 0 ∅)
       (Scenario.invocation Scenario.setup_ok)
     = Some (Scenario.quiet (Scenario.paired EmptyString)).
Proof. split; vm_compute; reflexivity. Qed.

(** C3, amended: normalization keeps exactly the digits, in order; a
    missing number and the empty string are rejected at once with the 400
    reply, before any workspace or session is created; every non-empty raw
    string passes the check, whatever it contains, and the session setup
    starts on a new workspace path. *)
Theorem normalization_and_rejection :
  (forall raw,
      JsString.chars (sanitize raw) = List.filter JsString.is_digit (JsString.chars raw))
  /\ (forall makeid env w,
        let rejected :=
          Done (Ret tt)
            (set_trace (trace w ++ [EReply number_required])
               (set_res true (sent w ++ [number_required])
                  (set_next_id (S (next_id w)) w))) in
        generatePairingCodeAndConnect makeid env {| query_number := None |} w = rejected
        /\ generatePairingCodeAndConnect makeid env {| query_number := Some EmptyString |} w
           = rejected)
  /\ (forall makeid env c raw w,
        exists rest,
          events_since w
            (snd (alone (generatePairingCodeAndConnect makeid env
                           {| query_number := Some (String c raw) |}) w))
          = EAuthState (next_dir makeid w) :: rest).
Proof.
  split_and!.
  - apply sanitize_chars.
  - intros makeid env w. split; by apply invoke_rejected.
  - intros makeid env c raw w. unfold next_dir.
    unfold generatePairingCodeAndConnect. exec.
    change (truthy (query_number {| query_number := Some (String c raw) |})) with true. exec.
    destruct (authState_fails env) as [e|] eqn:Ha.
    + rewrite (alone_useMultiFileAuthState_fails _ _ _ e) by done. exec. cbn.
      destruct (headersSent w); cbn;
        eexists; apply events_since_app; cbn; trace_norm; reflexivity.
    + rewrite alone_useMultiFileAuthState_ok by done. exec.
      destruct (makeSocket_fails env) as [e|]; exec; cbn;
        [|destruct (registered_at _ _); exec; cbn;
          [|destruct (pairingCode env) as [e|pcode]; exec; cbn]].
      all: destruct (headersSent w); exec; cbn.
      all: eexists; apply events_since_app; cbn; trace_norm; reflexivity.
Qed.

(** C4 (the code departs from the claim): the primary path.  The session is
    unregistered and nothing was replied; the pairing code is requested and
    sent, and line 67 returns from the function: no listener is installed,
    nothing is suspended or scheduled, and no notification for the session
    can be handled afterwards. *)
Theorem primary_path_installs_no_listener :
  run Scenario.makeid Scenario.request (initial_sys 0 ∅)
    (Scenario.invocation Scenario.setup_ok)
  = Some (Scenario.quiet (Scenario.paired "15551234567"))
  /\ forall s,
       step Scenario.makeid Scenario.request
         (Scenario.quiet (Scenario.paired "15551234567")) s = None.
Proof.
  split; [vm_compute; reflexivity|].
  intros [env|l update env|l c|i]; reflexivity.
Qed.

(** C5: a Close notification whose error carries status 401.  Without
    suspending, the run logs, removes the workspace, writes the
    authentication failure to the caller exactly when no reply went out
    before, and ends in [process.exit()], after which no step of the
    system is possible; no retry is scheduled. *)
Theorem close_unauthorized_is_terminal makeid req env dir msg w :
  on_connection_update req env dir (close_with 401 msg) w
  = Done Exit
      (set_trace (trace w
                    ++ [ELog false "Authentication failed, removing session and restarting:"]
                    ++ rm_events w dir
                    ++ (if headersSent w then [] else [EReply auth_failure])
                    ++ [EExit None])
         (set_exited true
            (set_res true (if headersSent w then sent w else sent w ++ [auth_failure])
               (set_fs (delete dir (fs w)) w))))
  /\ fs (snd (alone (on_connection_update req env dir (close_with 401 msg)) w)) !! dir = None
  /\ pending (snd (alone (on_connection_update req env dir (close_with 401 msg)) w))
     = pending w
  /\ reinvocations
       (events_since w (snd (alone (on_connection_update req env dir (close_with 401 msg)) w)))
     = []
  /\ forall others s,
       step makeid req
         {| world := snd (alone (on_connection_update req env dir (close_with 401 msg)) w);
            suspended := others |} s
       = None.
Proof.
  rewrite close_unauthorized_run. split_and!; simpl.
  - unfold on_connection_update, bind, disconnect_statusCode, console_log, emit, ret.
    cbn -[removeFile unless_headersSent process_exit]. rewrite removeFile_done.
    unfold unless_headersSent, bind, get_headersSent, process_exit. cbn.
    destruct (headersSent w) eqn:H; cbn; trace_norm.
    + f_equal. destruct w; cbn in *. by subst.
    + done.
  - apply lookup_delete_eq.
  - done.
  - erewrite events_since_app by reflexivity.
    unfold rm_events. by destruct (fs w !! dir), (headersSent w).
  - done.
Qed.

(** C6: a Close notification whose error carries a status other than 401.
    The run logs, removes the workspace and suspends for the 2000 ms
    backoff; when it resumes it schedules exactly one invocation of the
    route function on the same request.  The run itself writes nothing to
    the caller and does not end the process. *)
Theorem close_transient_schedules_one_retry req env dir c msg w :
  c <> 401%Z ->
  on_connection_update req env dir (close_with c msg) w
  = Yield
      (set_trace (trace w
                    ++ [ELog false "Connection closed, restarting pairing process due to:"]
                    ++ rm_events w dir
                    ++ [EDelay 2000])
         (set_fs (delete dir (fs w)) w))
      (schedule req)
  /\ alone (on_connection_update req env dir (close_with c msg)) w
     = (Ret tt,
        set_trace (trace w
                     ++ [ELog false "Connection closed, restarting pairing process due to:"]
                     ++ rm_events w dir
                     ++ [EDelay 2000; EReinvoke req])
          (set_pending (S (pending w)) (set_fs (delete dir (fs w)) w)))
  /\ fs (snd (alone (on_connection_update req env dir (close_with c msg)) w)) !! dir = None
  /\ reinvocations
       (events_since w (snd (alone (on_connection_update req env dir (close_with c msg)) w)))
     = [req]
  /\ replies
       (events_since w (snd (alone (on_connection_update req env dir (close_with c msg)) w)))
     = []
  /\ sent (snd (alone (on_connection_update req env dir (close_with c msg)) w)) = sent w
  /\ headersSent (snd (alone (on_connection_update req env dir (close_with c msg)) w))
     = headersSent w
  /\ exited (snd (alone (on_connection_update req env dir (close_with c msg)) w)) = exited w.
Proof.
  intros Hc. rewrite close_transient_run by done. split_and!; simpl; try done.
  - unfold on_connection_update, bind, disconnect_statusCode, console_log, emit, ret.
    cbn -[removeFile delay schedule].
    destruct (Z.eqb_spec c 401) as [->|_]; [done|].
    cbn -[removeFile delay schedule]. rewrite removeFile_done.
    unfold delay, bind, emit, yield. cbn. trace_norm. done.
  - apply lookup_delete_eq.
  - erewrite events_since_app by reflexivity.
    unfold rm_events. by destruct (fs w !! dir).
  - erewrite events_since_app by reflexivity.
    unfold rm_events. by destruct (fs w !! dir).
Qed.

Lemma close_transient_schedules_one_retry_witness :
  428%Z <> 401%Z
  /\ reinvocations
       (events_since (Scenario.listening_replied Scenario.bare_disk)
          (snd (alone (on_connection_update Scenario.request Scenario.export_ok "./temp/0"
                         (close_with 428 "Connection Closed"))
                  (Scenario.listening_replied Scenario.bare_disk))))
     = [Scenario.request].
Proof.
  assert (H : 428%Z <> 401%Z) by lia.
  split; [exact H|].
  exact (proj1 (proj2 (proj2 (proj2
    (close_transient_schedules_one_retry Scenario.request Scenario.export_ok "./temp/0"
       428 "Connection Closed" (Scenario.listening_replied Scenario.bare_disk) H))))).
Defined.

(** C7 as stated fails: the artifact is present and the upload rejects.
    The upload was invoked once, no message is sent, the caller gets the
    delivery failure, and the process is not ended. *)
Lemma upload_rejected_sends_no_message :
  alone (on_connection_update Scenario.request Scenario.upload_rejected "./temp/0"
           (open_update None))
    (Scenario.listening Scenario.registered_disk)
  = (Ret tt,
     {| next_id := 1; fs := ∅; headersSent := true; sent := [delivery_failed];
        listeners := [Scenario.first]; pending := 0; exited := false;
        trace := [EDelay 5000;
                  EUpload (creds_stream "./temp/0" {| registered := true |})
                    "15551234567:1@s.whatsapp.net.json";
                  ELog true "ERROR uploading to Mega or sending messages:";
                  EReply delivery_failed;
                  EWsClose "./temp/0";
                  ERmSync "./temp/0"] |}).
Proof. vm_compute. reflexivity. Qed.

(** C7, amended: an Open notification for a workspace that holds
    [creds.json], the run not being interrupted.  The upload is invoked
    exactly once, with the stream of that file and the name
    [<sock.user.id>.json], whatever the collaborators answer.  When the
    upload and both sends resolve, exactly two messages go to
    [sock.user.id], the token message first and the description second,
    quoting the first; then the socket is closed, the workspace removed and
    the process ended by [process.exit()] without an error status; nothing
    is written to the caller. *)
Theorem open_with_credentials_exports req env dir ld w c :
  stored_creds w dir = Some c ->
  uploads (events_since w (snd (alone (on_connection_update req env dir (open_update ld)) w)))
  = [(creds_stream dir c, user_id env +:+ ".json")]
  /\ forall url m1 m2,
       upload_result env = inr url ->
       sendMessage1 env = inr m1 ->
       sendMessage2 env = inr m2 ->
       alone (on_connection_update req env dir (open_update ld)) w
       = (Exit,
          set_trace (trace w
                       ++ [EDelay 5000;
                           EUpload (creds_stream dir c) (user_id env +:+ ".json");
                           ESendMessage (user_id env) (token_message url) None;
                           ESendMessage (user_id env) (description_message env) (Some m1);
                           EDelay 100;
                           EWsClose dir;
                           ERmSync dir;
                           ELog false ("👤 " +:+ user_id env
                                         +:+ " Connected ✅ Restarting process...");
                           EExit None])
            (set_exited true (set_fs (delete dir (fs w)) w)))
       /\ messages
            (events_since w
               (snd (alone (on_connection_update req env dir (open_update ld)) w)))
          = [(user_id env, token_message url, None);
             (user_id env, description_message env, Some m1)]
       /\ fs (snd (alone (on_connection_update req env dir (open_update ld)) w)) !! dir
          = None.
Proof.
  intros Hc. split.
  - destruct (export_cases env) as [(url & m1 & m2 & Hu & H1 & H2)|[sends Hf]].
    + rewrite (open_export_run req env dir ld w c url m1 m2) by done.
      erewrite events_since_app by reflexivity. reflexivity.
    + rewrite (open_failure_run req env dir ld w c sends) by done.
      erewrite events_since_app by reflexivity.
      unfold uploads. rewrite !flat_map_app.
      change (flat_map _ sends) with (uploads sends).
      rewrite (uploads_of_failure env sends Hf).
      destruct (headersSent w); reflexivity.
  - intros url m1 m2 Hu H1 H2.
    rewrite (open_export_run req env dir ld w c url m1 m2) by done.
    split_and!; [done| |apply lookup_delete_eq].
    erewrite events_since_app by reflexivity. reflexivity.
Qed.

Lemma open_with_credentials_exports_witness :
  stored_creds (Scenario.listening Scenario.registered_disk) "./temp/0"
  = Some {| registered := true |}
  /\ uploads
       (events_since (Scenario.listening Scenario.registered_disk)
          (snd (alone (on_connection_update Scenario.request Scenario.export_ok "./temp/0"
                         (open_update None))
                  (Scenario.listening Scenario.registered_disk))))
     = [(creds_stream "./temp/0" {| registered := true |},
         "15551234567:1@s.whatsapp.net.json")].
Proof.
  assert (H : stored_creds (Scenario.listening Scenario.registered_disk) "./temp/0"
              = Some {| registered := true |}) by reflexivity.
  split; [exact H|].
  exact (proj1 (open_with_credentials_exports Scenario.request Scenario.export_ok "./temp/0"
                  None (Scenario.listening Scenario.registered_disk) _ H)).
Defined.

(** C8: the token is the locator with the prefix [https://mega.nz/file/]
    stripped; the message to self is the marker followed by the token, so
    it contains the token; the first message the export sends goes to the
    authenticated identity and carries that text; and the number
    [+1 (555) 123-4567] is normalized to [15551234567]. *)
Theorem self_message_carries_token :
  (forall token, sessionString ("https://mega.nz/file/" +:+ token) = token)
  /\ (forall url,
        messageToSelf url = "RAHEEM-XMD-3>>>" +:+ sessionString url
        /\ JsString.includes (sessionString url) (messageToSelf url) = true)
  /\ (forall req env dir ld w c url,
        stored_creds w dir = Some c ->
        upload_result env = inr url ->
        exists rest,
          messages
            (events_since w
               (snd (alone (on_connection_update req env dir (open_update ld)) w)))
          = (user_id env, {| text := messageToSelf url; contextInfo := None |}, None) :: rest)
  /\ sanitize "+1 (555) 123-4567" = "15551234567".
Proof.
  split_and!.
  - intros token. apply JsStringFacts.replace_first_prefix.
  - intros url. split; [done|]. apply JsStringFacts.includes_suffix.
  - intros req env dir ld w c url Hc Hu.
    destruct (sendMessage1 env) as [e1|m1] eqn:H1.
    { rewrite (open_failure_run req env dir ld w c _ Hc (first_send_rejects env url e1 Hu H1)).
      erewrite events_since_app by reflexivity.
      destruct (headersSent w); eexists; reflexivity. }
    destruct (sendMessage2 env) as [e2|m2] eqn:H2.
    { rewrite (open_failure_run req env dir ld w c _ Hc
                 (second_send_rejects env url m1 e2 Hu H1 H2)).
      erewrite events_since_app by reflexivity.
      destruct (headersSent w); eexists; reflexivity. }
    rewrite (open_export_run req env dir ld w c url m1 m2) by done.
    erewrite events_since_app by reflexivity. eexists. reflexivity.
  - reflexivity.
Qed.

Lemma self_message_carries_token_witness :
  exists rest,
    messages
      (events_since (Scenario.listening Scenario.registered_disk)
         (snd (alone (on_connection_update Scenario.request Scenario.export_ok "./temp/0"
                        (open_update None))
                 (Scenario.listening Scenario.registered_disk))))
    = ("15551234567:1@s.whatsapp.net",
       {| text := "RAHEEM-XMD-3>>>ABC123#key"; contextInfo := None |}, None) :: rest.
Proof.
  exact (proj1 (proj2 (proj2 self_message_carries_token))
           Scenario.request Scenario.export_ok "./temp/0" None
           (Scenario.listening Scenario.registered_disk) {| registered := true |}
           "https://mega.nz/file/ABC123#key" eq_refl eq_refl).
Defined.

(** C9: a Close notification without [lastDisconnect], or whose
    [lastDisconnect] carries no error, changes nothing: the run is over at
    once in the world it started in, so nothing is removed, replied,
    scheduled or logged, and the process goes on. *)
Theorem close_without_error_is_inert req env dir w :
  on_connection_update req env dir {| connection := Some close; lastDisconnect := None |} w
  = Done (Ret tt) w
  /\ on_connection_update req env dir
       {| connection := Some close; lastDisconnect := Some {| error := None |} |} w
     = Done (Ret tt) w.
Proof. split; reflexivity. Qed.

Lemma listening_owned disk :
  (forall p, is_Some (disk !! p) -> p = "./temp/0") ->
  ws_owned Scenario.makeid (Scenario.listening_replied disk)
  /\ ws_owned Scenario.makeid (Scenario.listening disk).
Proof.
  intros Hd.
  assert (H0 : exists j, j < 1 /\ "./temp/0" = sessionDirPath_of (Scenario.makeid j)).
  { exists 0. split; [lia | reflexivity]. }
  split; (split; simpl; [intros p ->%Hd; exact H0|]).
  all: intros l ->%list_elem_of_singleton; exact H0.
Qed.

Lemma bare_disk_paths p : is_Some (Scenario.bare_disk !! p) -> p = "./temp/0".
Proof.
  unfold Scenario.bare_disk. intros [ws H].
  by apply lookup_singleton_Some in H as [-> _].
Qed.

(** C10 as stated fails twice.  First run: the first session finds
    registered credentials, so its listener is installed without any reply;
    after a transient Close the retry uses the new workspace [./temp/1],
    starts unregistered, requests a code, and delivers it, no reply having
    been sent.  Second run: a retry whose session setup rejects requests no
    pairing code at all. *)
Lemma retry_delivers_or_skips_the_code :
  Scenario.ends Scenario.request (initial_sys 0 Scenario.registered_disk)
    ([ Invoke Scenario.setup_ok; Resume 0;
       ConnectionUpdate Scenario.first (close_with 428 "Connection Closed")
         Scenario.export_ok;
       Resume 0 ]
     ++ Scenario.invocation Scenario.setup_ok)
  = Some {| next_id := 2;
            fs := {[ "./temp/1" := {| creds_json := None |} ]};
            headersSent := true;
            sent := [pairing_reply "ABCD-1234"];
            listeners := [Scenario.first];
            pending := 0;
            exited := false;
            trace := [EAuthState "./temp/0"; EMakeSocket "./temp/0";
                      ESubscribe "creds.update" "./temp/0";
                      ESubscribe "connection.update" "./temp/0";
                      ELog false "Connection closed, restarting pairing process due to:";
                      ERmSync "./temp/0"; EDelay 2000; EReinvoke Scenario.request;
                      EAuthState "./temp/1"; EMakeSocket "./temp/1"; EDelay 1500;
                      ERequestPairingCode "15551234567";
                      EReply (pairing_reply "ABCD-1234")] |}
  /\ Scenario.ends Scenario.request
       (Scenario.quiet (Scenario.listening_replied Scenario.bare_disk))
       [ ConnectionUpdate Scenario.first (close_with 428 "Connection Closed")
           Scenario.export_ok;
         Resume 0;
         Invoke Scenario.setup_rejects; Resume 0 ]
     = Some {| next_id := 2;
               fs := ∅;
               headersSent := true;
               sent := [pairing_reply "ABCD-1234"];
               listeners := [Scenario.first];
               pending := 0;
               exited := false;
               trace := [ELog false "Connection closed, restarting pairing process due to:";
                         ERmSync "./temp/0"; EDelay 2000; EReinvoke Scenario.request;
                         EAuthState "./temp/1";
                         ELog true "ERROR in generatePairingCodeAndConnect:"] |}.
Proof. split; vm_compute; reflexivity. Qed.

(** C10, amended.  With unique session ids, in a state where the
    workspaces on disk and the listeners belong to ids already issued:
    when a listener gets a transient Close, it schedules one invocation,
    and that invocation takes an id that differs from every id issued
    before, so its workspace path differs from the failed attempt's and
    from every path on disk.  When the session setup of that invocation
    succeeds, the session starts unregistered and a new pairing code is
    requested; the code is not delivered when a reply was already sent,
    and it is delivered when none was.  Both runs are taken without
    interruption. *)
Theorem retry_uses_fresh_workspace makeid req w l c msg xenv env :
  Inj (=) (=) makeid ->
  ws_owned makeid w ->
  l ∈ listeners w ->
  truthy (query_number req) = true ->
  c <> 401%Z ->
  authState_fails env = None ->
  makeSocket_fails env = None ->
  let w1 := snd (alone (on_connection_update req xenv (l_dir l) (close_with c msg)) w) in
  let w2 := snd (alone (generatePairingCodeAndConnect makeid env req) w1) in
  reinvocations (events_since w w1) = [req]
  /\ (forall j, j < next_id w1 -> makeid j <> makeid (next_id w1))
  /\ next_dir makeid w1 <> l_dir l
  /\ fs w1 !! next_dir makeid w1 = None
  /\ registered_at w1 (next_dir makeid w1) = false
  /\ next_id w2 = S (next_id w1)
  /\ (exists rest,
        events_since w1 w2
        = [EAuthState (next_dir makeid w1);
           EMakeSocket (next_dir makeid w1);
           EDelay 1500;
           ERequestPairingCode (sanitize (default EmptyString (query_number req)))] ++ rest
        /\ (headersSent w = true -> replies rest = []))
  /\ (headersSent w = true -> sent w2 = sent w)
  /\ (forall pcode, headersSent w = false -> pairingCode env = inr pcode ->
                    sent w2 = sent w ++ [pairing_reply pcode])
  /\ ws_owned makeid w2.
Proof.
  intros Hinj Hown Hl Ht Hc Ha Hs w1 w2.
  assert (Hle1 : own_le makeid w w1).
  { apply (safe_finish (own_le makeid)). by apply on_connection_update_own. }
  assert (Hle2 : own_le makeid w1 w2).
  { apply (safe_finish (own_le makeid)). apply generatePairingCodeAndConnect_own. }
  assert (Hown1 : ws_owned makeid w1) by by apply Hle1.
  assert (Hres : res_le w1 w2).
  { apply (safe_finish res_le). by apply generatePairingCodeAndConnect_res. }
  subst w1 w2. rewrite close_transient_run in * by done. cbn [snd] in *.
  set (w1 := set_trace _ (set_pending (S (pending w)) (set_fs (delete (l_dir l) (fs w)) w)))
    in *.
  destruct (next_dir_fresh makeid Hinj _ Hown1) as (Hfresh & Hids & Hls).
  destruct (invoke_requests_code makeid req env w1 Ht Ha Hs Hfresh)
    as (Hn & rest & Htr & Hrep).
  split_and!.
  - erewrite events_since_app by reflexivity.
    unfold rm_events. by destruct (fs w !! l_dir l).
  - intros j Hj Heq. apply Hinj in Heq. lia.
  - intros Heq. by apply (Hls l Hl).
  - done.
  - unfold registered_at, stored_creds. by rewrite Hfresh.
  - done.
  - exists rest. split; [|exact Hrep]. by apply events_since_app.
  - intros Hh. destruct Hres as [[Hsent _]|[Hf _]]; [exact Hsent|].
    change (headersSent w1) with (headersSent w) in Hf. congruence.
  - intros pcode Hh Hp.
    rewrite (invoke_primary_run makeid env req w1 pcode); try done.
    unfold registered_at, stored_creds. by rewrite Hfresh.
  - by apply Hle2.
Qed.

Lemma retry_uses_fresh_workspace_witness :
  next_dir Scenario.makeid
    (snd (alone (on_connection_update Scenario.request Scenario.export_ok "./temp/0"
                   (close_with 428 "Connection Closed"))
            (Scenario.listening_replied Scenario.bare_disk)))
  <> "./temp/0".
Proof.
  exact (proj1 (proj2 (proj2
    (retry_uses_fresh_workspace Scenario.makeid Scenario.request
       (Scenario.listening_replied Scenario.bare_disk) Scenario.first
       428 "Connection Closed" Scenario.export_ok Scenario.setup_ok
       scenario_makeid_unique
       (proj1 (listening_owned Scenario.bare_disk bare_disk_paths))
       ltac:(apply list_elem_of_singleton; reflexivity)
       eq_refl ltac:(lia) eq_refl eq_refl)))).
Defined.

(** * Further properties of the code *)

(** ** [removeFile] *)

(** X1: lines 15-21.  [removeFile] returns true exactly when the path
    existed; afterwards the path is gone and every other path is as
    before, and neither the response object, nor the listeners, nor the
    process state is touched.  Removing again returns false and changes
    nothing. *)
Theorem removeFile_clears_path path w :
  exists w',
    removeFile path w = Done (Ret (bool_decide (is_Some (fs w !! path)))) w'
    /\ fs w' !! path = None
    /\ (forall q, q <> path -> fs w' !! q = fs w !! q)
    /\ sent w' = sent w /\ headersSent w' = headersSent w
    /\ listeners w' = listeners w /\ exited w' = exited w
    /\ removeFile path w' = Done (Ret false) w'.
Proof.
  exists (set_trace (trace w ++ rm_events w path) (set_fs (delete path (fs w)) w)).
  split_and!; try done.
  - rewrite removeFile_done. f_equal.
    destruct (fs w !! path) eqn:E.
    + by rewrite bool_decide_eq_true_2.
    + rewrite bool_decide_eq_false_2; [done|]. by intros [? ?].
  - simpl. apply lookup_delete_eq.
  - intros q Hq. simpl. by apply lookup_delete_ne.
  - rewrite removeFile_done. simpl. rewrite lookup_delete_eq.
    unfold rm_events at 2. simpl. rewrite lookup_delete_eq.
    rewrite app_nil_r. by rewrite delete_delete_eq.
Qed.

(** ** Strings *)

Lemma chars_append a b : JsString.chars (a +:+ b) = JsString.chars a ++ JsString.chars b.
Proof. induction a as [|c a IH]; simpl; [done | by rewrite IH]. Qed.

Lemma chars_inj a b : JsString.chars a = JsString.chars b -> a = b.
Proof.
  revert b. induction a as [|c a IH]; intros [|d b]; simpl; try done.
  intros [= -> H]. f_equal. by apply IH.
Qed.

Lemma length_chars s : length (JsString.chars s) = String.length s.
Proof. induction s as [|c s IH]; simpl; [done | by rewrite IH]. Qed.

Lemma prefix_drop_length p s :
  String.prefix p s = true ->
  String.length (JsString.drop (String.length p) s) + String.length p = String.length s.
Proof.
  revert s. induction p as [|c p IH]; intros [|d s]; simpl; try done.
  destruct (ascii_dec c d); [|done]. intros H%IH. lia.
Qed.

Lemma replace_first_absent pat s :
  JsString.includes pat s = false -> JsString.replace_first pat EmptyString s = s.
Proof.
  induction s as [|c s IH];
    rewrite JsStringFacts.includes_unfold, JsStringFacts.replace_first_unfold;
    intros [Hp Hi]%orb_false_elim; rewrite Hp.
  - done.
  - by rewrite IH.
Qed.

Lemma replace_first_length pat s :
  JsString.includes pat s = true ->
  String.length (JsString.replace_first pat EmptyString s) + String.length pat
  = String.length s.
Proof.
  induction s as [|c s IH]; rewrite JsStringFacts.includes_unfold, JsStringFacts.replace_first_unfold;
    destruct (String.prefix pat _) eqn:Hp; simpl.
  - intros _. by apply prefix_drop_length in Hp.
  - done.
  - intros _. by apply prefix_drop_length in Hp.
  - intros H%IH. lia.
Qed.

(** X2: line 40.  What [phoneNumber.replace(/[^0-9]/g, '')] returns holds
    digits only, so sanitising twice is sanitising once; a string comes
    back unchanged exactly when all its characters are digits; the result
    is never longer than the input, and sanitising a concatenation is
    concatenating the sanitised parts. *)
Theorem sanitize_digits_only :
  (forall raw, Forall (fun c => JsString.is_digit c = true) (JsString.chars (sanitize raw)))
  /\ (forall raw, sanitize (sanitize raw) = sanitize raw)
  /\ (forall raw, sanitize raw = raw <-> forallb JsString.is_digit (JsString.chars raw) = true)
  /\ (forall raw, String.length (sanitize raw) <= String.length raw)
  /\ (forall a b, sanitize (a +:+ b) = sanitize a +:+ sanitize b).
Proof.
  assert (Hall : forall raw,
             Forall (fun c => JsString.is_digit c = true) (JsString.chars (sanitize raw))).
  { intros raw. rewrite sanitize_chars. apply Forall_forall. intros c Hc.
    apply list_elem_of_In, List.filter_In in Hc. apply Hc. }
  assert (Hfix : forall s, forallb JsString.is_digit (JsString.chars s) = true -> sanitize s = s).
  { intros s Hs. apply chars_inj. rewrite sanitize_chars.
    induction (JsString.chars s) as [|c l IH]; simpl in *; [done|].
    apply andb_prop in Hs as [-> Hl]. by rewrite IH. }
  split_and!.
  - exact Hall.
  - intros raw. apply Hfix. apply forallb_forall. intros c Hc.
    apply list_elem_of_In in Hc. specialize (Hall raw).
    rewrite Forall_forall in Hall. by apply Hall.
  - intros raw. split; [|apply Hfix].
    intros Heq. apply forallb_forall. intros c Hc. apply list_elem_of_In in Hc.
    specialize (Hall raw). rewrite Heq, Forall_forall in Hall. by apply Hall.
  - intros raw. rewrite <- !length_chars, sanitize_chars. apply List.filter_length_le.
  - intros a b. apply chars_inj.
    rewrite chars_append, !sanitize_chars, chars_append. apply List.filter_app.
Qed.

(** X3: line 98.  [megaUrl.replace('https://mega.nz/file/', '')] removes one
    occurrence of the prefix and no more: a locator that holds it becomes
    21 characters shorter, and a locator that holds it nowhere is used
    whole as the session string. *)
Theorem sessionString_strips_one_occurrence url :
  if JsString.includes "https://mega.nz/file/" url
  then String.length (sessionString url) + 21 = String.length url
  else sessionString url = url.
Proof.
  destruct (JsString.includes _ url) eqn:H.
  - by apply replace_first_length in H.
  - by apply replace_first_absent.
Qed.

(** X4: lines 98-99.  On locators of the archive, which start with the
    prefix, the message to self determines the locator: two different
    uploads never get the same session string. *)
Theorem token_message_determines_locator t1 t2 :
  messageToSelf ("https://mega.nz/file/" +:+ t1) = messageToSelf ("https://mega.nz/file/" +:+ t2) ->
  t1 = t2.
Proof.
  unfold messageToSelf, sessionString. rewrite !JsStringFacts.replace_first_prefix.
  intros H. by apply (inj (String.app _)) in H.
Qed.

Lemma token_message_determines_locator_witness :
  "ABC123#key" = "ABC123#key".
Proof.
  exact (token_message_determines_locator "ABC123#key" "ABC123#key" eq_refl).
Defined.

(** ** Invocations *)

Lemma opened_lookup (files : gmap string Workspace) dir : is_Some (opened files dir !! dir).
Proof.
  unfold opened. destruct (files !! dir) eqn:E; [by rewrite E|]. rewrite lookup_insert_eq. eauto.
Qed.

Lemma invoke_outcome makeid env req w :
  truthy (query_number req) = true ->
  let dir := next_dir makeid w in
  let r := alone (generatePairingCodeAndConnect makeid env req) w in
  fst r = Ret tt
  /\ next_id (snd r) = S (next_id w)
  /\ listeners (snd r)
     = (if installs_listener env req w dir then listeners w ++ [{| l_dir := dir |}]
        else listeners w)
  /\ subscriptions (events_since w (snd r))
     = (if installs_listener env req w dir
        then [("creds.update", dir); ("connection.update", dir)] else [])
  /\ code_requests (events_since w (snd r))
     = (if setup_succeeds env && negb (registered_at w dir) then [phone_of req] else [])
  /\ (setup_fails env w dir = true ->
      fs (snd r) !! dir = None
      /\ sent (snd r) = (if headersSent w then sent w else sent w ++ [service_unavailable])
      /\ headersSent (snd r) = true)
  /\ exited (snd r) = exited w
  /\ pending (snd r) = pending w.
Proof.
  intros Ht dir r. subst r.
  unfold installs_listener, setup_fails, setup_succeeds, code_resolves, phone_of.
  rewrite Ht. unfold generatePairingCodeAndConnect. exec. rewrite Ht. exec.
  fold (next_dir makeid w). fold dir.
  destruct (authState_fails env) as [e|] eqn:Ha.
  - rewrite (alone_useMultiFileAuthState_fails _ _ _ e) by done. exec. cbn.
    destruct (headersSent w) eqn:Hh; cbn.
    all: split_and!; try done.
    all: try (erewrite events_since_app by (cbn; trace_norm; reflexivity)).
    all: unfold rm_events; cbn; try (destruct (fs w !! dir); reflexivity).
    all: intros _; split_and!; [apply lookup_delete_eq | done..].
  - rewrite alone_useMultiFileAuthState_ok by done. exec.
    change (registered_at (set_next_id _ w) ?d) with (registered_at w d).
    fold (next_dir makeid w). fold dir.
    destruct (makeSocket_fails env) as [e|] eqn:Hs; exec; cbn [registered];
      [|destruct (registered_at w dir) eqn:Hr; exec;
        [|destruct (pairingCode env) as [e|pcode] eqn:Hp; exec]];
      cbn; destruct (headersSent w) eqn:Hh; exec; cbn.
    all: split_and!; try done.
    all: try (erewrite events_since_app by (cbn; trace_norm; reflexivity)).
    all: unfold rm_events; cbn; try (destruct (opened_lookup (fs w) dir) as [ws ->]).
    all: try reflexivity.
    all: intros _; split_and!; [apply lookup_delete_eq | done..].
Qed.

(** X5: lines 45-64 and 187-193.  When [useMultiFileAuthState] rejects,
    [makeWASocket] throws, or the pairing code of an unregistered session
    is refused, the invocation swallows the error: it ends normally, its
    workspace is gone from disk, no listener was installed, the process
    goes on, and the caller gets the 500 "Service currently unavailable"
    reply exactly when no reply had been sent. *)
Theorem setup_failure_is_reported makeid env req w :
  truthy (query_number req) = true ->
  setup_fails env w (next_dir makeid w) = true ->
  let r := alone (generatePairingCodeAndConnect makeid env req) w in
  fst r = Ret tt
  /\ fs (snd r) !! next_dir makeid w = None
  /\ listeners (snd r) = listeners w
  /\ subscriptions (events_since w (snd r)) = []
  /\ sent (snd r) = (if headersSent w then sent w else sent w ++ [service_unavailable])
  /\ headersSent (snd r) = true
  /\ exited (snd r) = exited w
  /\ pending (snd r) = pending w.
Proof.
  intros Ht Hf r.
  destruct (invoke_outcome makeid env req w Ht)
    as (Ho & _ & Hl & Hsub & _ & Hfail & He & Hp).
  destruct (Hfail Hf) as (Hfs & Hsent & Hh).
  assert (Hno : installs_listener env req w (next_dir makeid w) = false).
  { unfold installs_listener, setup_fails in *.
    destruct (setup_succeeds env), (registered_at w _), (code_resolves env); try done.
    all: by rewrite ?andb_false_r. }
  rewrite Hno in Hl, Hsub. by split_and!.
Qed.

Lemma setup_failure_is_reported_witness :
  sent (snd (alone (generatePairingCodeAndConnect Scenario.makeid Scenario.setup_rejects
                      Scenario.request)
               (initial_world 0 ∅)))
  = [service_unavailable].
Proof.
  exact (proj1 (proj2 (proj2 (proj2 (proj2
    (setup_failure_is_reported Scenario.makeid Scenario.setup_rejects Scenario.request
       (initial_world 0 ∅) eq_refl eq_refl)))))).
Defined.

(** X6: lines 34-37 and 62-75.  An invocation that nothing interrupts
    installs its two listeners, [creds.update] first, exactly when the
    number is usable, the session setup succeeds, and line 67 does not
    return: that is, when the stored credentials are registered, or the
    pairing code was obtained after a reply had already gone out.  In every
    other case the listeners are as before. *)
Theorem listener_installed_when makeid env req w :
  listeners (snd (alone (generatePairingCodeAndConnect makeid env req) w))
  = (if installs_listener env req w (next_dir makeid w)
     then listeners w ++ [{| l_dir := next_dir makeid w |}]
     else listeners w)
  /\ subscriptions
       (events_since w (snd (alone (generatePairingCodeAndConnect makeid env req) w)))
     = (if installs_listener env req w (next_dir makeid w)
        then [("creds.update", next_dir makeid w); ("connection.update", next_dir makeid w)]
        else []).
Proof.
  destruct (truthy (query_number req)) eqn:Ht.
  - destruct (invoke_outcome makeid env req w Ht) as (_ & _ & Hl & Hsub & _). by split.
  - unfold installs_listener, alone. rewrite Ht, invoke_rejected by done. split; [done|].
    by erewrite events_since_app by reflexivity.
Qed.

(** X7: lines 40 and 62-64.  The transport is asked for a pairing code at
    most once per invocation, exactly when the number is usable, the
    session setup succeeds and the stored credentials are not registered;
    the number it is given is the sanitised one. *)
Theorem pairing_code_requested_when makeid env req w :
  code_requests
    (events_since w (snd (alone (generatePairingCodeAndConnect makeid env req) w)))
  = (if truthy (query_number req) && setup_succeeds env
        && negb (registered_at w (next_dir makeid w))
     then [phone_of req] else []).
Proof.
  destruct (truthy (query_number req)) eqn:Ht.
  - by destruct (invoke_outcome makeid env req w Ht) as (_ & _ & _ & _ & Hc & _).
  - unfold alone. rewrite invoke_rejected by done.
    by erewrite events_since_app by reflexivity.
Qed.

(** ** The listener *)

(** X8: lines 94-102, 132-143 and 153-160.  The credentials being there,
    when the upload or one of the two sends rejects, the listener contains
    the failure: the run ends normally without [process.exit()], nothing
    more is sent after the rejected call, the socket is closed and the
    workspace removed, no retry is scheduled, and the caller gets the 500
    "Failed to upload or send messages" reply exactly when no reply had
    been sent. *)
Theorem export_failure_is_contained req env dir ld w c sends :
  stored_creds w dir = Some c ->
  ExportFailure env sends ->
  let r := alone (on_connection_update req env dir (open_update ld)) w in
  fst r = Ret tt
  /\ events_since w (snd r)
     = [EDelay 5000; EUpload (creds_stream dir c) (user_id env +:+ ".json")]
       ++ sends
       ++ [ELog true "ERROR uploading to Mega or sending messages:"]
       ++ (if headersSent w then [] else [EReply delivery_failed])
       ++ [EWsClose dir; ERmSync dir]
  /\ length sends <= 2
  /\ sent (snd r) = (if headersSent w then sent w else sent w ++ [delivery_failed])
  /\ headersSent (snd r) = true
  /\ fs (snd r) !! dir = None
  /\ exited (snd r) = exited w
  /\ pending (snd r) = pending w.
Proof.
  intros Hc Hf r. subst r.
  rewrite (open_failure_run req env dir ld w c sends Hc Hf). cbn [fst snd].
  split_and!; try done.
  - by apply events_since_app.
  - destruct Hf; simpl; lia.
  - simpl. apply lookup_delete_eq.
Qed.

Lemma export_failure_is_contained_witness :
  sent (snd (alone (on_connection_update Scenario.request Scenario.upload_rejected "./temp/0"
                      (open_update None))
               (Scenario.listening Scenario.registered_disk)))
  = [delivery_failed].
Proof.
  exact (proj1 (proj2 (proj2 (proj2
    (export_failure_is_contained Scenario.request Scenario.upload_rejected "./temp/0" None
       (Scenario.listening Scenario.registered_disk) {| registered := true |} []
       eq_refl (upload_rejects Scenario.upload_rejected (Rejected "EBLOCKED") eq_refl)))))).
Defined.

(** The Open branch, up to its first two suspensions: the settle interval,
    and then, in the world the interval ends in, the throw of line 85 or
    the upload of the credentials found there. *)
Lemma open_resumed req env dir ld w :
  exists k,
    on_connection_update req env dir (open_update ld) w
    = Yield (set_trace (trace w ++ [EDelay 5000]) w) k
    /\ forall w',
         k w' = match stored_creds w' dir with
                | None => Done (Throw (ReferenceError "cresFilePath")) w'
                | Some c =>
                    try_catch
                      (megaUrl <- upload env (creds_stream dir c) (user_id env +:+ ".json") ;;
                       sentMessage <- sendMessage (sendMessage1 env) (user_id env)
                                        {| text := messageToSelf megaUrl; contextInfo := None |}
                                        None ;;
                       sendMessage (sendMessage2 env) (user_id env)
                         {| text := botDescription (tanzaniaTime env) (tanzaniaDate env);
                            contextInfo := Some adReply |}
                         (Some sentMessage) ;;
                       delay 100 ;;
                       ws_close dir ;;
                       removeFile dir ;;
                       console_log ("👤 " +:+ user_id env +:+ " Connected ✅ Restarting process...") ;;
                       process_exit None)
                      (fun megaError =>
                         console_error "ERROR uploading to Mega or sending messages:" ;;
                         unless_headersSent
                           (res_send 500 "❗ Failed to upload or send messages.") ;;
                         ws_close dir ;;
                         removeFile dir ;;
                         ret tt) w'
                end.
Proof.
  eexists. split; [reflexivity|]. intros w'.
  cbn. unfold existsSync_creds, bind, ret. cbn.
  destruct (stored_creds w' dir) as [c|] eqn:E; cbn; [|done].
  unfold try_catch, bind, createReadStream. cbn. rewrite E. reflexivity.
Qed.

(** X9: lines 80-96.  The listener looks for [creds.json] when the settle
    interval ends, not when the notification arrives: whatever happened to
    the workspace meanwhile, a run resumed without the file throws and
    uploads nothing, and a run resumed with the file calls the upload
    with a stream of the file that is there at that moment, under the name
    [<sock.user.id>.json], before it is suspended again. *)
Theorem open_reads_credentials_at_resumption req env dir ld w :
  exists k,
    on_connection_update req env dir (open_update ld) w
    = Yield (set_trace (trace w ++ [EDelay 5000]) w) k
    /\ (forall w', stored_creds w' dir = None ->
                   k w' = Done (Throw (ReferenceError "cresFilePath")) w')
    /\ (forall w' c, stored_creds w' dir = Some c ->
                     exists k',
                       k w' = Yield (set_trace
                                       (trace w' ++ [EUpload (creds_stream dir c)
                                                       (user_id env +:+ ".json")]) w') k').
Proof.
  destruct (open_resumed req env dir ld w) as (k & Hk & Hres).
  exists k. split_and!; [exact Hk| |].
  - intros w' H. by rewrite Hres, H.
  - intros w' c H. rewrite Hres, H. eexists. reflexivity.
Qed.

(** X10: lines 164-166.  A Close notification whose error has no [output]
    (an error that is not a Boom) makes the condition of line 166 throw a
    TypeError: the run ends there, in the world it started in, so the
    workspace is not removed and neither a retry nor a reply follows. *)
Theorem close_error_without_output_throws req env dir msg w :
  on_connection_update req env dir (close_without_output msg) w
  = Done (Throw (TypeError "Cannot read properties of undefined (reading 'statusCode')")) w.
Proof. reflexivity. Qed.

(** ** What the log of a request can hold *)

Section Log.

Variable req : Request.

#[global] Instance log_le_preorder : PreOrder (log_le req).
Proof.
  split.
  - intros w. split_and!; [exists []|exists []|done]; by rewrite app_nil_r.
  - intros w1 w2 w3 ((e1 & He1 & Ho1) & (r1 & Hr1 & Hk1) & Hl1)
      ((e2 & He2 & Ho2) & (r2 & Hr2 & Hk2) & Hl2).
    split_and!.
    + exists (e1 ++ e2). split; [by rewrite He2, He1, app_assoc | by apply Forall_app].
    + exists (r1 ++ r2). split; [by rewrite Hr2, Hr1, app_assoc | by apply Forall_app].
    + by etrans.
Qed.

(** A stretch that logs [evs], replies [rs] and adds the listeners [ls]. *)
Lemma log_le_intro w w' evs rs ls :
  trace w' = trace w ++ evs -> Forall (effect_ok req) evs ->
  sent w' = sent w ++ rs -> Forall known_reply rs ->
  listeners w' = listeners w ++ ls ->
  log_le req w w'.
Proof.
  intros Ht Ho Hs Hk Hl. split_and!; [by exists evs | by exists rs|].
  rewrite Hl. by apply prefix_app_r.
Qed.

Lemma log_le_quiet w w' :
  trace w' = trace w -> sent w' = sent w -> listeners w' = listeners w -> log_le req w w'.
Proof.
  intros Ht Hs Hl.
  apply (log_le_intro w w' [] [] []); rewrite ?app_nil_r; done.
Qed.

Lemma log_emit e : effect_ok req e -> respects always (log_le req) (emit e).
Proof.
  intros He w _. apply (log_le_intro _ _ [e] [] []); rewrite ?app_nil_r; try done.
  by apply Forall_singleton.
Qed.

Lemma log_get_headersSent : respects always (log_le req) get_headersSent.
Proof. intros w _. by apply log_le_quiet. Qed.
Lemma log_existsSync p : respects always (log_le req) (existsSync p).
Proof. intros w _. by apply log_le_quiet. Qed.
Lemma log_makeid_call makeid : respects always (log_le req) (makeid_call makeid).
Proof. intros w _. by apply log_le_quiet. Qed.
Lemma log_read_authState d : respects always (log_le req) (read_authState d).
Proof. intros w _. unfold read_authState. destruct (fs w !! d); by apply log_le_quiet. Qed.

Lemma log_rmSync p : respects always (log_le req) (rmSync p).
Proof.
  intros w _. apply (log_le_intro _ _ [ERmSync p] [] []); rewrite ?app_nil_r; try done.
  by apply Forall_singleton.
Qed.

Lemma log_process_exit {A} : respects always (log_le req) (@process_exit A None).
Proof.
  intros w _. apply (log_le_intro _ _ [EExit None] [] []); rewrite ?app_nil_r; try done.
  by apply Forall_singleton.
Qed.

Lemma log_schedule : respects always (log_le req) (schedule req).
Proof.
  intros w _. apply (log_le_intro _ _ [EReinvoke req] [] []); rewrite ?app_nil_r; try done.
  by apply Forall_singleton.
Qed.

Lemma log_ev_on_connection_update d : respects always (log_le req) (ev_on_connection_update d).
Proof.
  intros w _.
  apply (log_le_intro _ _ [ESubscribe "connection.update" d] [] [{| l_dir := d |}]);
    rewrite ?app_nil_r; try done.
  by apply Forall_singleton.
Qed.

Lemma log_res_send c msg :
  known_reply {| status := c; code := msg |} -> respects always (log_le req) (res_send c msg).
Proof.
  intros Hk w _.
  apply (log_le_intro _ _ [EReply {| status := c; code := msg |}]
           [{| status := c; code := msg |}] []); rewrite ?app_nil_r; try done.
  all: by apply Forall_singleton.
Qed.

End Log.

Create HintDb log discriminated.

#[export] Hint Resolve log_get_headersSent log_existsSync log_makeid_call log_read_authState
  log_rmSync log_process_exit log_schedule log_ev_on_connection_update : log.

Ltac known_reply_tac :=
  first [ left; reflexivity
        | right; apply list_elem_of_In; simpl; auto 10 ].

Ltac respects_log :=
  repeat first
    [ solve [auto with log]
    | apply log_res_send; known_reply_tac
    | apply log_emit; solve [exact I | reflexivity | (simpl; eauto)]
    | respects_step ].

Lemma generatePairingCodeAndConnect_log makeid env req :
  respects always (log_le req) (generatePairingCodeAndConnect makeid env req).
Proof.
  unfold generatePairingCodeAndConnect.
  unfold useMultiFileAuthState, makeWASocket, requestPairingCode, ev_on_creds_update,
    removeFile, unless_headersSent, delay, console_error.
  respects_log.
Qed.

Lemma on_connection_update_log req env dir update :
  respects always (log_le req) (on_connection_update req env dir update).
Proof.
  destruct update as [[[| |]|] ld].
  2: { intros w _. destruct (open_resumed req env dir ld w) as (k & Hk & Hres).
       change {| connection := Some open; lastDisconnect := ld |} with (open_update ld).
       rewrite Hk. simpl. split.
       - by apply (log_emit req (EDelay 5000)).
       - intros w' _. rewrite Hres.
         destruct (stored_creds w' dir) as [c|]; [|simpl; reflexivity].
         match goal with
         | |- safe ?R ?w0 (try_catch ?b ?h ?w0) =>
             enough (respects always R (try_catch b h)) as Hx by (apply Hx; exact I)
         end.
         unfold upload, sendMessage, ws_close, removeFile, unless_headersSent, delay,
           console_log, console_error.
         respects_log. }
  all: unfold on_connection_update, disconnect_statusCode, removeFile, unless_headersSent,
         delay, console_log, console_error; cbn [connection lastDisconnect].
  all: respects_log.
Qed.

(** The invariant along every run of the system. *)
Lemma log_inv_initial req n files : log_inv req (initial_sys n files).
Proof. split_and!; by apply Forall_nil. Qed.

Lemma log_le_inv req w w' :
  log_le req w w' ->
  Forall (effect_ok req) (trace w) -> Forall known_reply (sent w) ->
  Forall (effect_ok req) (trace w') /\ Forall known_reply (sent w').
Proof.
  intros ((evs & -> & Ho) & (rs & -> & Hk) & _) Ht Hs. split; by apply Forall_app.
Qed.

Lemma log_inv_step makeid req sys s sys' :
  log_inv req sys -> step makeid req sys s = Some sys' ->
  log_inv req sys' /\ log_le req (world sys) (world sys').
Proof.
  intros (Ht & Hs & Hk) Hstep. unfold step in Hstep.
  destruct (exited (world sys)); [done|].
  assert (Hsafe : forall r others,
             safe (log_le req) (world sys) r ->
             Forall (task_ok (log_le req) (world sys)) others ->
             log_inv req (absorb r others)
             /\ log_le req (world sys) (world (absorb r others))).
  { intros r others Hr Hot.
    destruct (absorb_safe (log_le req) _ r _ Hr Hot) as [Hle Hk'].
    destruct (log_le_inv req _ _ Hle Ht Hs) as [Ht' Hs']. by split_and!. }
  destruct s as [env|l update env|l c|i].
  - destruct (pending (world sys)) as [|n] eqn:Hp; [done|]. injection Hstep as <-.
    apply Hsafe; [|done].
    apply (safe_start (log_le req) _ (set_pending n (world sys))).
    + by apply log_le_quiet.
    + by apply generatePairingCodeAndConnect_log.
  - case_bool_decide as Hin; [|done]. injection Hstep as <-.
    apply Hsafe; [|done]. by apply on_connection_update_log.
  - case_bool_decide as Hin; [|done]. injection Hstep as <-.
    assert (Hle : log_le req (world sys) (saveCreds (l_dir l) c (world sys))).
    { unfold saveCreds. destruct (fs (world sys) !! l_dir l); by apply log_le_quiet. }
    destruct (log_le_inv req _ _ Hle Ht Hs) as [Ht' Hs'].
    split; [|done]. split_and!; simpl; [done..|].
    eapply Forall_impl; [exact Hk|]. intros k. exact (task_ok_mono (log_le req) _ _ k Hle).
  - destruct (suspended sys !! i) as [k|] eqn:Hi; [|done]. injection Hstep as <-.
    apply Hsafe; [|by apply Forall_delete].
    assert (Hki : task_ok (log_le req) (world sys) k).
    { eapply Forall_lookup_1; [exact Hk | exact Hi]. }
    apply Hki. reflexivity.
Qed.

Lemma log_inv_run makeid req steps : forall sys sys',
  log_inv req sys -> run makeid req sys steps = Some sys' -> log_inv req sys'.
Proof.
  induction steps as [|s steps IH]; intros sys sys' Hinv Hr; simpl in Hr.
  - by injection Hr as <-.
  - destruct (step makeid req sys s) as [sys1|] eqn:Hs; [|done].
    eapply IH; [|exact Hr]. by eapply log_inv_step.
Qed.

(** ** Runs of the system *)

Lemma race_runs :
  exists sys,
    run Scenario.makeid Scenario.request (initial_sys 0 Scenario.registered_disk) Scenario.race
    = Some sys
    /\ world sys = Scenario.race_end.
Proof.
  assert (H : Scenario.ends Scenario.request (initial_sys 0 Scenario.registered_disk)
                Scenario.race
              = Some Scenario.race_end) by (vm_compute; reflexivity).
  unfold Scenario.ends in H.
  destruct (run Scenario.makeid Scenario.request (initial_sys 0 Scenario.registered_disk)
              Scenario.race) as [sys|]; [|discriminate H].
  exists sys. split; [done|]. by injection H.
Qed.

Lemma primary_runs :
  run Scenario.makeid Scenario.request (initial_sys 0 ∅)
    (Scenario.invocation Scenario.setup_ok)
  = Some (Scenario.quiet (Scenario.paired "15551234567")).
Proof. vm_compute. reflexivity. Qed.

Lemma elem_of_Forall {A} (P : A -> Prop) (l : list A) x : Forall P l -> x ∈ l -> P x.
Proof. intros H Hx. rewrite Forall_forall in H. by apply H. Qed.

(** X11: lines 30-37 and 197.  A request whose number is missing or empty
    is over after its first invocation: the only thing the system can do
    is that invocation, which takes a session id, writes the 400 reply and
    does nothing else: no workspace, no call of the transport, no
    listener, nothing suspended or scheduled, and no further step. *)
Theorem rejected_request_runs makeid req n files steps sys :
  truthy (query_number req) = false ->
  run makeid req (initial_sys n files) steps = Some sys ->
  (steps = [] /\ sys = initial_sys n files)
  \/ (exists env,
        steps = [Invoke env]
        /\ sys = {| world := {| next_id := S n; fs := files; headersSent := true;
                                sent := [number_required]; listeners := []; pending := 0;
                                exited := false; trace := [EReply number_required] |};
                    suspended := [] |}).
Proof.
  intros Ht Hr. destruct steps as [|s rest]; simpl in Hr.
  { left. split; [done|]. by injection Hr as <-. }
  right. destruct s as [env|l update env|l c|i]; try done.
  unfold step in Hr. cbn [world initial_sys initial_world exited pending] in Hr.
  rewrite invoke_rejected in Hr by done. cbn in Hr.
  destruct rest as [|s rest]; simpl in Hr.
  - exists env. split; [done|]. by injection Hr as <-.
  - by destruct s.
Qed.

Lemma rejected_request_runs_witness :
  ([Invoke Scenario.setup_ok] = [] /\
   {| world := {| next_id := 1; fs := ∅; headersSent := true;
                  sent := [number_required]; listeners := []; pending := 0;
                  exited := false; trace := [EReply number_required] |};
      suspended := [] |} = initial_sys 0 ∅)
  \/ (exists env,
        [Invoke Scenario.setup_ok] = [Invoke env]
        /\ {| world := {| next_id := 1; fs := ∅; headersSent := true;
                          sent := [number_required]; listeners := []; pending := 0;
                          exited := false; trace := [EReply number_required] |};
              suspended := [] |}
           = {| world := {| next_id := 1; fs := ∅; headersSent := true;
                            sent := [number_required]; listeners := []; pending := 0;
                            exited := false; trace := [EReply number_required] |};
                suspended := [] |}).
Proof.
  exact (rejected_request_runs Scenario.makeid {| query_number := None |} 0 ∅
           [Invoke Scenario.setup_ok] _ eq_refl eq_refl).
Defined.

(** X12: lines 36, 67, 87, 156, 180 and 191.  Along every run of the system,
    whatever the interleaving, each reply written to the caller is the
    pairing code (status 200) or one of four fixed failures (400 number
    required, 401 authentication failed, 500 failed to upload or send,
    500 service unavailable).  The 500 "Credentials file not found" reply
    of line 87 is never written. *)
Theorem replies_are_known makeid req n files steps sys :
  run makeid req (initial_sys n files) steps = Some sys ->
  Forall known_reply (sent (world sys))
  /\ missing_credentials ∉ sent (world sys).
Proof.
  intros Hr.
  destruct (log_inv_run makeid req steps _ _ (log_inv_initial req n files) Hr)
    as (_ & Hs & _).
  split; [exact Hs|]. intros Hin.
  destruct (elem_of_Forall _ _ _ Hs Hin) as [H|H]; [done|].
  apply list_elem_of_In in H. simpl in H. by destruct H as [H|[H|[H|[H|[]]]]].
Qed.

Lemma replies_are_known_witness :
  Forall known_reply (sent Scenario.race_end).
Proof.
  destruct race_runs as (sys & Hr & <-).
  exact (proj1 (replies_are_known _ _ _ _ _ _ Hr)).
Defined.

(** X13: lines 84-96.  Along every run of the system, every call of the
    archival upload is given a stream made on a [creds.json] that exists
    at that moment: the existence check of line 84 and the creation of the
    stream in line 96 happen in one stretch, so no interleaving puts a
    removal of the workspace between them. *)
Theorem uploads_carry_credentials makeid req n files steps sys stream name :
  run makeid req (initial_sys n files) steps = Some sys ->
  EUpload stream name ∈ trace (world sys) ->
  is_Some (rs_content stream).
Proof.
  intros Hr Hin.
  destruct (log_inv_run makeid req steps _ _ (log_inv_initial req n files) Hr)
    as (Ht & _ & _).
  exact (elem_of_Forall _ _ _ Ht Hin).
Qed.

Lemma uploads_carry_credentials_witness :
  is_Some (rs_content (creds_stream "./temp/0" {| registered := true |})).
Proof.
  destruct race_runs as (sys & Hr & Hw).
  refine (uploads_carry_credentials _ _ _ _ _ sys _ "15551234567:1@s.whatsapp.net.json" Hr _).
  rewrite Hw. vm_compute. do 5 apply list_elem_of_further. apply list_elem_of_here.
Defined.

(** X14: lines 40 and 64.  Along every run of the system, retries included,
    the transport is only ever asked for a pairing code for the sanitised
    number of the request, which holds digits only. *)
Theorem transport_gets_sanitised_number makeid req n files steps sys p :
  run makeid req (initial_sys n files) steps = Some sys ->
  ERequestPairingCode p ∈ trace (world sys) ->
  p = phone_of req
  /\ Forall (fun c => JsString.is_digit c = true) (JsString.chars p).
Proof.
  intros Hr Hin.
  destruct (log_inv_run makeid req steps _ _ (log_inv_initial req n files) Hr)
    as (Ht & _ & _).
  pose proof (elem_of_Forall _ _ _ Ht Hin) as Hp. simpl in Hp. subst p.
  split; [done|]. unfold phone_of. rewrite sanitize_chars.
  apply Forall_forall. intros c Hc. apply list_elem_of_In, List.filter_In in Hc. apply Hc.
Qed.

Lemma transport_gets_sanitised_number_witness :
  "15551234567" = phone_of Scenario.request
  /\ Forall (fun c => JsString.is_digit c = true) (JsString.chars "15551234567").
Proof.
  destruct race_runs as (sys & Hr & Hw).
  refine (transport_gets_sanitised_number _ _ _ _ _ sys _ Hr _).
  rewrite Hw. vm_compute. do 16 apply list_elem_of_further. apply list_elem_of_here.
Defined.

(** X15: lines 151 and 182.  Along every run of the system, every
    [process.exit()] is called without a status argument, after an export
    and after an authentication failure alike: the program never asks for
    a failure status. *)
Theorem exits_without_status makeid req n files steps sys c :
  run makeid req (initial_sys n files) steps = Some sys ->
  EExit c ∈ trace (world sys) ->
  c = None.
Proof.
  intros Hr Hin.
  destruct (log_inv_run makeid req steps _ _ (log_inv_initial req n files) Hr)
    as (Ht & _ & _).
  exact (elem_of_Forall _ _ _ Ht Hin).
Qed.

Lemma exits_without_status_witness :
  @None Z = None.
Proof.
  destruct race_runs as (sys & Hr & Hw).
  refine (exits_without_status _ _ _ _ _ sys None Hr _).
  rewrite Hw. vm_compute. do 21 apply list_elem_of_further. apply list_elem_of_here.
Defined.



(** X17: lines 30, 42, 47 and 75.  With unique session ids and an empty
    [./temp] at the start, along every run of the system the workspace
    path of the next invocation is not on disk and no listener is bound to
    it: an invocation never opens the workspace of another one. *)
Theorem next_workspace_is_fresh_along_runs makeid req n steps sys :
  Inj (=) (=) makeid ->
  run makeid req (initial_sys n ∅) steps = Some sys ->
  fs (world sys) !! next_dir makeid (world sys) = None
  /\ (forall l, l ∈ listeners (world sys) -> l_dir l <> next_dir makeid (world sys)).
Proof.
  intros Hinj Hr.
  destruct (own_inv_run makeid req steps _ _ (own_inv_initial makeid n) Hr) as [Hown _].
  destruct (next_dir_fresh makeid Hinj _ Hown) as (Hfs & _ & Hls). by split.
Qed.

Lemma next_workspace_is_fresh_along_runs_witness :
  fs (Scenario.paired "15551234567") !! "./temp/1" = None.
Proof.
  exact (proj1 (next_workspace_is_fresh_along_runs Scenario.makeid Scenario.request 0
                  (Scenario.invocation Scenario.setup_ok)
                  (Scenario.quiet (Scenario.paired "15551234567"))
                  scenario_makeid_unique primary_runs)).
Defined.
